(** * Equal-weighted top-100 index: the daily pipeline and its store

    A shallow embedding of [compute_index100.py] (class [ComputeIndex100])
    and of the part of [database.py] (class [MarketDataConn]) it calls.

    - The four SQLite tables are finite maps from their primary key to the
      remaining columns; [INSERT OR REPLACE] is map insertion.
    - [REAL] columns and Python floats are exact rationals ([Q]); a value the
      provider does not have (a NaN cell of a float frame) is an absent key.
    - Python exceptions are the constructors of [exn]; a method that may
      raise runs in the monad [M], which threads the store and stops at the
      first exception, keeping what was committed before it.
    - The data provider (yfinance, the Wikipedia table) is a record of
      answers, [provider]. *)

From Stdlib Require Import QArith Qfield Qround String Ascii Sorted.
From stdpp Require Import gmap strings list fin_maps sorting.

Open Scope string_scope.

(** ** Strings: the order of Python [str] and of SQLite [TEXT]

    Both compare code unit by code unit, which is [String.compare]. *)

Module StrOrd.

(** [a <= b] on strings, as a relation the sorting functions can decide. *)
Definition le (a b : string) : Prop := String.leb a b = true.

#[global] Instance le_dec a b : Decision (le a b).
Proof. unfold le. apply _. Defined.

End StrOrd.

(** Python's [sorted] on a list of strings. *)
Definition sorted (l : list string) : list string := merge_sort StrOrd.le l.

(** ** Exceptions and the store monad *)

Inductive exn : Type :=
  | ZeroDivisionError          (* [1/0], [x/0.0] *)
  | KeyError (key : string)    (* [d[k]] with [k] not in [d]; [df.loc[k]] *)
  | ValueError                 (* [pd.concat([])] *)
  | RateLimitException         (* the [Exception] of [_yf_download_helper] *)
  | RetryError.                (* tenacity, once [stop_after_attempt] is reached *)

Inductive result (A : Type) : Type :=
  | Ok (a : A)
  | Raise (e : exn).
Arguments Ok {A} a.
Arguments Raise {A} e.

Definition result_bind {A B} (r : result A) (k : A → result B) : result B :=
  match r with Ok a => k a | Raise e => Raise e end.

(** ** database.py: the four tables *)

(** [quarterly_shares]: PRIMARY KEY (ticker, report_date) -> shares_outstanding.
    [market_caps]: PRIMARY KEY (date, ticker) -> (shares_outstanding,
    closing_price, market_cap).
    [index_composition]: PRIMARY KEY (date, ticker) -> ticker_qty.
    [index_performance]: PRIMARY KEY date -> index_value. *)
Record store : Type := {
  quarterly_shares : gmap (string * string) Q;
  market_caps : gmap (string * string) (Q * Q * Q);
  index_composition : gmap (string * string) Q;
  index_performance : gmap string Q;
}.

(** [_create_tables] on a fresh database file. *)
Definition empty_store : store :=
  {| quarterly_shares := ∅; market_caps := ∅;
     index_composition := ∅; index_performance := ∅ |}.

(** A computation that reads and writes the database and may raise. The
    store that comes back with [Raise] holds every write committed before
    the exception. *)
Definition M (A : Type) : Type := store → result A * store.

Definition ret {A} (a : A) : M A := λ st, (Ok a, st).
Definition bind {A B} (m : M A) (k : A → M B) : M B :=
  λ st, match m st with
        | (Ok a, st') => k a st'
        | (Raise e, st') => (Raise e, st')
        end.
Definition lift {A} (r : result A) : M A := λ st, (r, st).
Definition gets {A} (f : store → A) : M A := λ st, (Ok (f st), st).
Definition modify (f : store → store) : M unit := λ st, (Ok tt, f st).

Notation "'let!' x ':=' m 'in' k" := (bind m (λ x, k))
  (at level 10, x name, m at level 100, k at level 200).

(** [cursor.executemany("INSERT OR REPLACE ...", data)]: the rows in order,
    a later row replacing an earlier one with the same key. *)
Definition insert_or_replace `{Countable K} {V} (m : gmap K V) (data : list (K * V)) : gmap K V :=
  foldl (λ acc kv, <[kv.1 := kv.2]> acc) m data.

(** Rows are the tuples the Python code builds. *)
Definition shares_row : Type := string * string * Q.           (* ticker, report_date, shares *)
Definition market_row : Type := string * string * Q * Q * Q.   (* date, ticker, shares, close, cap *)
Definition composition_row : Type := string * string * Q.      (* date, ticker, ticker_qty *)

Definition store_quarterly_shares_db (data : list shares_row) (st : store) : store :=
  {| quarterly_shares :=
       insert_or_replace (quarterly_shares st)
         (map (λ '(ticker, report_date, shares), ((ticker, report_date), shares)) data);
     market_caps := market_caps st;
     index_composition := index_composition st;
     index_performance := index_performance st |}.

Definition store_market_data_db (market_data : list market_row) (st : store) : store :=
  {| quarterly_shares := quarterly_shares st;
     market_caps :=
       insert_or_replace (market_caps st)
         (map (λ '(date, ticker, shares, close, cap), ((date, ticker), (shares, close, cap)))
              market_data);
     index_composition := index_composition st;
     index_performance := index_performance st |}.

Definition store_new_composition_db (data : list composition_row) (st : store) : store :=
  {| quarterly_shares := quarterly_shares st;
     market_caps := market_caps st;
     index_composition :=
       insert_or_replace (index_composition st)
         (map (λ '(date, ticker, qty), ((date, ticker), qty)) data);
     index_performance := index_performance st |}.

Definition store_index_value_db (date : string) (index_value : Q) (st : store) : store :=
  {| quarterly_shares := quarterly_shares st;
     market_caps := market_caps st;
     index_composition := index_composition st;
     index_performance := <[date := index_value]> (index_performance st) |}.

Definition store_quarterly_shares (data : list shares_row) : M unit :=
  modify (store_quarterly_shares_db data).
Definition store_market_data (market_data : list market_row) : M unit :=
  modify (store_market_data_db market_data).
Definition store_new_composition (data : list composition_row) : M unit :=
  modify (store_new_composition_db data).
Definition store_index_value (date : string) (index_value : Q) : M unit :=
  modify (store_index_value_db date index_value).

(** *** Queries *)

(** [ORDER BY market_cap DESC]: [a] may come before [b]. *)
Definition cap_ge (a b : string * Q) : Prop := Qle_bool b.2 a.2 = true.

#[global] Instance cap_ge_dec a b : Decision (cap_ge a b).
Proof. unfold cap_ge. apply _. Defined.

(** The rows [WHERE date = d] of a table keyed by (date, ticker), as
    (ticker, columns) pairs. SQL fixes no order for them; they come in the
    order in which the selected rows enumerate, whatever else the table
    holds (an index scan on the primary key). *)
Definition rows_on {V} (t : gmap (string * string) V) (d : string) : list (string * V) :=
  (λ kv, (kv.1.2, kv.2)) <$> map_to_list (filter (λ kv, kv.1.1 = d) t).

(** The (ticker, market_cap) pairs of the rows [WHERE date = ?]. *)
Definition market_caps_on (mc : gmap (string * string) (Q * Q * Q)) (date : string)
  : list (string * Q) :=
  (λ '(ticker, (_, _, cap)), (ticker, cap)) <$> rows_on mc date.

(** [SELECT ticker FROM market_caps WHERE date = ? ORDER BY market_cap DESC
    LIMIT 100], then [sorted(...)] on the tickers. SQL leaves the order of
    rows of equal [market_cap] to the engine; here the sort keeps or swaps
    them as [merge_sort] does, and no theorem below depends on it. *)
Definition top_100_rows (mc : gmap (string * string) (Q * Q * Q)) (date : string)
  : list (string * Q) :=
  take 100 (merge_sort cap_ge (market_caps_on mc date)).

Definition get_top_100_stocks_db (date : string) (st : store) : list string :=
  sorted (map fst (top_100_rows (market_caps st) date)).

(** [SELECT MAX(date) FROM index_composition WHERE date < ?]; [None] is
    SQL's NULL, the maximum of no rows. *)
Definition later (d : string) (acc : option string) : option string :=
  match acc with
  | None => Some d
  | Some d0 => if String.ltb d0 d then Some d else Some d0
  end.

Definition max_date_before {V} (t : gmap (string * string) V) (date : string)
  : option string :=
  foldr (λ kv acc, if String.ltb kv.1.1 date then later kv.1.1 acc else acc)
        None (map_to_list t).

(** [SELECT ticker, ticker_qty FROM index_composition WHERE date = (...)];
    [date = NULL] holds for no row. *)
Definition fetch_recent_composition_db (date : string) (st : store)
  : list (string * Q) :=
  match max_date_before (index_composition st) date with
  | None => []
  | Some d => rows_on (index_composition st) d
  end.

Definition get_previous_top_100_db (date : string) (st : store) : list string :=
  let results := map fst (fetch_recent_composition_db date st) in
  match results with
  | [] => []
  | _ => sorted results
  end.

(** [SELECT shares_outstanding FROM quarterly_shares WHERE ticker = ? AND
    report_date <= ? ORDER BY report_date DESC LIMIT 1], [fetchone()]. *)
Definition latest_report (acc : option (string * Q)) (rd : string) (shares : Q)
  : option (string * Q) :=
  match acc with
  | None => Some (rd, shares)
  | Some (rd0, s0) => if String.ltb rd0 rd then Some (rd, shares) else Some (rd0, s0)
  end.

Definition fetchone_shares (q : gmap (string * string) Q) (ticker date : string)
  : option Q :=
  snd <$>
    foldr (λ '((t, rd), shares) acc,
             if decide (t = ticker) then
               if String.leb rd date then latest_report acc rd shares else acc
             else acc)
          None (map_to_list q).

(** [shares_info[ticker] = cursor.fetchone()] for every ticker. *)
Definition fetch_outstanding_shares_db (date : string) (tickers : list string) (st : store)
  : gmap string (option Q) :=
  foldl (λ shares_info ticker,
           <[ticker := fetchone_shares (quarterly_shares st) ticker date]> shares_info)
        ∅ tickers.

Definition get_top_100_stocks (date : string) : M (list string) :=
  gets (get_top_100_stocks_db date).
Definition get_previous_top_100 (date : string) : M (list string) :=
  gets (get_previous_top_100_db date).
Definition fetch_recent_composition (date : string) : M (list (string * Q)) :=
  gets (fetch_recent_composition_db date).
Definition fetch_outstanding_shares (date : string) (tickers : list string)
  : M (gmap string (option Q)) :=
  gets (fetch_outstanding_shares_db date tickers).

(** ** compute_index100.py *)

(** A frame returned by [yf.download], reduced to what the pipeline reads:
    index date -> (ticker -> Close). *)
Definition frame : Type := gmap string (gmap string Q).

(** One call of [yf.download]: the frame, and [len(yf.shared._ERRORS)]
    after the call. *)
Record download : Type := {
  prices_df : frame;
  shared_errors : nat;
}.

(** The answers of the outside world during a run.
    - [yf_index ticker date]: the index of
      [yf.download(ticker, start=date, end=date + 1 day)];
    - [sp500_symbols]: the [Symbol] column of the constituents table;
    - [ordinary_shares ticker]: the column ["Ordinary Shares Number"] of the
      quarterly balance sheet after [dropna()], as (report date, shares), or
      [None] when the sheet has no such column;
    - [yf_download chunk attempt tickers date]: the call made for the
      [chunk]-th chunk (from 0) at its [attempt]-th attempt (from 1). *)
Record provider : Type := {
  yf_index : string → string → list string;
  sp500_symbols : list string;
  ordinary_shares : string → option (list (string * Q));
  yf_download : nat → nat → list string → string → download;
}.

Section Pipeline.

Variable self : provider.
Variable date : string.

Definition is_trading_day (ticker : string) : bool :=
  bool_decide (date ∈ yf_index self ticker date).

(** [symbol.replace('.', '-')] *)
Fixpoint replace_dot (symbol : string) : string :=
  match symbol with
  | EmptyString => EmptyString
  | String c rest =>
      String (if Ascii.eqb c "."%char then "-"%char else c) (replace_dot rest)
  end.

Definition fetch_sp500_stocks : list string :=
  map replace_dot (sp500_symbols self).

Definition fetch_quarterly_shares (ticker : string) : list shares_row :=
  match ordinary_shares self ticker with
  | Some shares_data => map (λ '(report_date, shares), (ticker, report_date, shares)) shares_data
  | None => []
  end.

Definition fetch_and_store_all_quarterly_shares (tickers : list string) : M unit :=
  let ticker_data_list := concat (map fetch_quarterly_shares tickers) in
  match ticker_data_list with
  | [] => ret tt
  | _ => store_quarterly_shares ticker_data_list
  end.

(** The body of [_yf_download_helper], one attempt. *)
Definition yf_download_attempt (chunk : nat) (tickers : list string) (attempt : nat)
  : result frame :=
  let d := yf_download self chunk attempt tickers date in
  match shared_errors d with
  | O => Ok (prices_df d)
  | S _ => Raise RateLimitException
  end.

(** tenacity's [@retry(stop=stop_after_attempt(n))]: call again after every
    exception; when attempt number [n] has raised too, raise [RetryError].
    The wait between attempts ([wait_random(30, 90)]) takes time only. *)
Fixpoint retry_loop {A} (remaining attempt_number : nat) (fn : nat → result A) : result A :=
  match fn attempt_number with
  | Ok a => Ok a
  | Raise _ =>
      match remaining with
      | O => Raise RetryError
      | S remaining' => retry_loop remaining' (S attempt_number) fn
      end
  end.

Definition retry {A} (stop_after_attempt : nat) (fn : nat → result A) : result A :=
  retry_loop (stop_after_attempt - 1) 1 fn.

Definition _yf_download_helper (chunk : nat) (tickers : list string) : result frame :=
  retry 10 (yf_download_attempt chunk tickers).

Definition max_chunk_len : nat := 20.

(** [range(0, stop, step)] *)
Definition range_step (stop step : nat) : list nat :=
  map (λ j, j * step) (seq 0 ((stop + step - 1) / step)).

(** [l[i:j]] for [0 <= i <= j] *)
Definition slice {A} (i j : nat) (l : list A) : list A := take (j - i) (drop i l).

Definition sub_tickers_list (tickers : list string) : list (list string) :=
  map (λ i, slice i (i + max_chunk_len) tickers)
      (range_step (length tickers) max_chunk_len).

(** The loop of [yf_downloader]: one helper call per chunk, in order. *)
Fixpoint download_chunks (chunk : nat) (chunks : list (list string)) : result (list frame) :=
  match chunks with
  | [] => Ok []
  | ticker_list :: rest =>
      result_bind (_yf_download_helper chunk ticker_list) (λ df,
      result_bind (download_chunks (S chunk) rest) (λ dfs,
      Ok (df :: dfs)))
  end.

(** [pd.concat(frames, axis=1)]: the union of the indexes, the columns side
    by side; no frames is a [ValueError]. *)
Definition concat_columns (a b : frame) : frame :=
  union_with (λ row_a row_b, Some (row_b ∪ row_a)) a b.

Definition pd_concat (frames : list frame) : result frame :=
  match frames with
  | [] => Raise ValueError
  | _ => Ok (foldl concat_columns ∅ frames)
  end.

Definition yf_downloader (tickers : list string) : result frame :=
  result_bind (download_chunks 0 (sub_tickers_list tickers)) pd_concat.

(** [prices.loc[self.date]['Close'].to_dict()] *)
Definition fetch_closing_prices (tickers : list string) : result (gmap string Q) :=
  result_bind (yf_downloader tickers) (λ prices,
  match prices !! date with
  | Some row => Ok row
  | None => Raise (KeyError date)
  end).

(** [shares_info] has a key for every ticker of [tickers], so
    [shares_info[ticker]] does not raise; [None] and a missing price both
    take the [else] branch. *)
Definition fetch_market_data (prices : gmap string Q) (tickers : list string)
  : M (list market_row) :=
  let! shares_info := fetch_outstanding_shares date tickers in
  ret (omap (λ ticker,
               match default None (shares_info !! ticker), prices !! ticker with
               | Some shares_outstanding, Some curr_close =>
                   Some (date, ticker, shares_outstanding, curr_close,
                         (curr_close * shares_outstanding)%Q)
               | _, _ => None
               end) tickers).

(** Python's [/]. *)
Definition py_div (a b : Q) : result Q :=
  if Qeq_bool b 0 then Raise ZeroDivisionError else Ok (a / b)%Q.

Definition py_getitem (d : gmap string Q) (key : string) : result Q :=
  match d !! key with
  | Some v => Ok v
  | None => Raise (KeyError key)
  end.

Fixpoint for_each {A B} (f : A → result B) (l : list A) : result (list B) :=
  match l with
  | [] => Ok []
  | x :: rest =>
      result_bind (f x) (λ y,
      result_bind (for_each f rest) (λ ys, Ok (y :: ys)))
  end.

Definition len {A} (l : list A) : Q := inject_Z (Z.of_nat (length l)).

Definition rebalance_rows (prices : gmap string Q) (new_top_100 : list string)
    (curr_index_value : Q) : result (list composition_row) :=
  result_bind (py_div 1 (len new_top_100)) (λ weight,
  for_each (λ ticker,
              result_bind (py_getitem prices ticker) (λ price,
              result_bind (py_div (weight * curr_index_value) price) (λ qty,
              Ok (date, ticker, qty))))
           new_top_100).

Definition rebalance_index (prices : gmap string Q) (new_top_100 : list string)
    (curr_index_value : Q) : M unit :=
  let! index_composition := lift (rebalance_rows prices new_top_100 curr_index_value) in
  store_new_composition index_composition.

Definition removed_stocks (prev_top_100 new_top_100 : list string) : gset string :=
  list_to_set prev_top_100 ∖ list_to_set new_top_100.

Definition added_stocks (prev_top_100 new_top_100 : list string) : gset string :=
  list_to_set new_top_100 ∖ list_to_set prev_top_100.

(** [if removed_stocks or len(prev_top_100) == 0] *)
Definition must_rebalance (prev_top_100 new_top_100 : list string) : bool :=
  bool_decide (removed_stocks prev_top_100 new_top_100 ≠ ∅)
  || bool_decide (length prev_top_100 = 0).

Definition track_composition_changes (prices : gmap string Q)
    (prev_top_100 new_top_100 : list string) (curr_index_value : Q) : M unit :=
  if must_rebalance prev_top_100 new_top_100
  then rebalance_index prices new_top_100 curr_index_value
  else ret tt.

(** [for ticker, ticker_qty in recent_composition:
       curr_index_value += prices[ticker]*ticker_qty] *)
Fixpoint revalue (prices : gmap string Q) (recent_composition : list (string * Q))
    (curr_index_value : Q) : result Q :=
  match recent_composition with
  | [] => Ok curr_index_value
  | (ticker, ticker_qty) :: rest =>
      result_bind (py_getitem prices ticker) (λ price,
      revalue prices rest (curr_index_value + price * ticker_qty)%Q)
  end.

Definition dump_index_value (prices : gmap string Q)
    (prev_top_100 new_top_100 : list string) : M Q :=
  let! recent_composition := fetch_recent_composition date in
  let! curr_index_value :=
    lift (match recent_composition with
          | [] => Ok 10000%Q
          | _ => revalue prices recent_composition 0
          end) in
  let! _ := track_composition_changes prices prev_top_100 new_top_100 curr_index_value in
  let! _ := store_index_value date curr_index_value in
  ret curr_index_value.

Definition compute_index_value (fetch_quarterly_results : bool) : M unit :=
  if negb (is_trading_day "AAPL") then ret tt
  else
    let sp500_tickers := fetch_sp500_stocks in
    let! _ := (if fetch_quarterly_results
               then fetch_and_store_all_quarterly_shares sp500_tickers
               else ret tt) in
    let! prices := lift (fetch_closing_prices sp500_tickers) in
    let! market_data := fetch_market_data prices sp500_tickers in
    let! _ := store_market_data market_data in
    let! prev_top_100 := get_previous_top_100 date in
    let! new_top_100 := get_top_100_stocks date in
    let! index_value := dump_index_value prices prev_top_100 new_top_100 in
    ret tt.

End Pipeline.

(** * Vocabulary of the properties *)

(** [max_date_before], on a list of rows. *)
Definition max_date_fold {V} (date : string) (l : list (string * string * V))
  : option string :=
  foldr (λ kv acc, if String.ltb kv.1.1 date then later kv.1.1 acc else acc) None l.

(** The date chosen by [SELECT MAX(date) ... WHERE date < ?]: a date of the
    table, strictly before [date], and the latest such. *)
Definition is_max_date_before {V} (t : gmap (string * string) V) (date d : string)
  : Prop :=
  String.ltb d date = true ∧
  (∃ ticker v, t !! (d, ticker) = Some v) ∧
  ∀ d' ticker' v', t !! (d', ticker') = Some v' →
    String.ltb d' date = true → String.leb d' d = true.

Definition market_cap_of (st : store) (date ticker : string) : option Q :=
  (λ row, row.2) <$> market_caps st !! (date, ticker).

(** The rows [ORDER BY market_cap DESC], all of them. *)
Definition ranked (mc : gmap (string * string) (Q * Q * Q)) (date : string)
  : list (string * Q) :=
  merge_sort cap_ge (market_caps_on mc date).

(** The order the specification asks of the returned sequence: [a] may come
    before [b] when its market cap is larger, or equal with [a <= b]. *)
Definition cap_desc_ticker_asc (st : store) (date : string) (a b : string) : Prop :=
  match market_cap_of st date a, market_cap_of st date b with
  | Some cap_a, Some cap_b => (cap_b < cap_a)%Q ∨ ((cap_a == cap_b)%Q ∧ StrOrd.le a b)
  | _, _ => False
  end.

(** The quantity a rebalance gives to [ticker]:
    [(weight*curr_index_value)/prices[ticker]] with
    [weight = 1/len(new_top_100)]. *)
Definition quantity (prices : gmap string Q) (new_top_100 : list string)
    (curr_index_value : Q) (ticker : string) : Q :=
  ((1 / len new_top_100 * curr_index_value) / default 0 (prices !! ticker))%Q.

(** Every ticker of the list is priced, and not at zero. *)
Definition all_priced (prices : gmap string Q) (tickers : list string) : Prop :=
  ∀ ticker, ticker ∈ tickers → ∃ p, prices !! ticker = Some p ∧ ¬ (p == 0)%Q.

(** The value of a list of holdings at the day's prices: the sum of
    quantity x price. *)
Definition holdings_value (prices : gmap string Q) (rows : list (string * Q)) : Q :=
  foldr (λ row total, (row.2 * default 0 (prices !! row.1) + total)%Q) 0%Q rows.

(** [curr_index_value] as [dump_index_value] computes it. *)
Definition current_value (prices : gmap string Q) (recent_composition : list (string * Q))
  : result Q :=
  match recent_composition with
  | [] => Ok 10000%Q
  | _ => revalue prices recent_composition 0
  end.

Section Steps.
Variable self : provider.
Variable date : string.

(** The steps of [compute_index_value] between the price fetch and the
    two top-100 queries: quarterly shares (when asked for), market data. *)
Definition refresh (flag : bool) : M unit :=
  if flag then fetch_and_store_all_quarterly_shares self (fetch_sp500_stocks self)
  else ret tt.

Definition prepare (flag : bool) (prices : gmap string Q) : M unit :=
  let! _ := refresh flag in
  let! market_data := fetch_market_data date prices (fetch_sp500_stocks self) in
  store_market_data market_data.

Definition refreshed (flag : bool) (st : store) : store := (refresh flag st).2.
Definition prepared (flag : bool) (prices : gmap string Q) (st : store) : store :=
  (prepare flag prices st).2.

(** The rows a rebalance of the day writes. *)
Definition snapshot_rows (prices : gmap string Q) (new_top_100 : list string) (V : Q)
  : list composition_row :=
  (λ ticker, (date, ticker, quantity prices new_top_100 V ticker)) <$> new_top_100.

(** The rows [fetch_market_data] builds; they depend on the store through
    the quarterly shares only. *)
Definition market_rows (prices : gmap string Q) (q : gmap (string * string) Q)
  : list market_row :=
  omap (λ ticker,
          match fetchone_shares q ticker date, prices !! ticker with
          | Some shares_outstanding, Some curr_close =>
              Some (date, ticker, shares_outstanding, curr_close,
                    (curr_close * shares_outstanding)%Q)
          | _, _ => None
          end) (fetch_sp500_stocks self).

End Steps.

(** * Stores and providers for closed instances *)

(** Two priced tickers on one day, the larger cap on the later name. *)
Definition two_caps : store :=
  {| quarterly_shares := ∅;
     market_caps := {[ ("2025-01-02", "A") := (1, 1, 1)%Q;
                       ("2025-01-02", "B") := (1, 2, 2)%Q ]};
     index_composition := ∅;
     index_performance := ∅ |}.

(** Two tickers only are priced and ranked on the day. *)
Definition two_prices : gmap string Q := {[ "A" := 50%Q; "B" := 25%Q ]}.

(** ** A small market

    Three symbols; 2025-01-04 is a Saturday; every download succeeds at the
    first attempt. *)

Definition closes (d : string) : gmap string Q :=
  if String.eqb d "2025-01-02"
  then {[ "A" := 2%Q; "B-B" := 4%Q; "C" := 5%Q ]}
  else {[ "A" := 3%Q; "B-B" := 4%Q; "C" := 5%Q ]}.

Definition acme : provider :=
  {| yf_index := λ _ d, if String.eqb d "2025-01-04" then [] else [d];
     sp500_symbols := ["A"; "B.B"; "C"];
     ordinary_shares := λ _, Some [("2024-12-31", 10%Q)];
     yf_download := λ _ _ _ d, {| prices_df := {[ d := closes d ]}; shared_errors := 0 |} |}.

(** The store after the first day, 2025-01-02, computed on a fresh
    database. *)
Definition after_first_day : store :=
  (compute_index_value acme "2025-01-02" true empty_store).2.

(** A store that holds three tickers since 2025-01-02 and knows the shares
    of two of them only: on the next day "C" is priced but not ranked. *)
Definition held_three : store :=
  {| quarterly_shares := {[ ("A", "2024-12-31") := 10%Q; ("B-B", "2024-12-31") := 10%Q ]};
     market_caps := ∅;
     index_composition := {[ ("2025-01-02", "A") := 100%Q;
                             ("2025-01-02", "B-B") := 50%Q;
                             ("2025-01-02", "C") := 20%Q ]};
     index_performance := {[ "2025-01-02" := 10000%Q ]} |}.

Definition after_rebalance : store :=
  (compute_index_value acme "2025-01-03" false held_three).2.

Definition after_second_day : store :=
  (compute_index_value acme "2025-01-03" false after_first_day).2.

(** The small market on a busy day: the first attempt of every download
    is turned away, the second gets the same frame. *)
Definition acme_busy : provider :=
  {| yf_index := yf_index acme;
     sp500_symbols := sp500_symbols acme;
     ordinary_shares := ordinary_shares acme;
     yf_download := λ chunk attempt tickers d,
       {| prices_df := {[ d := closes d ]};
          shared_errors := if Nat.eqb attempt 1 then 1 else 0 |} |}.

(** The small market, turned away ten times in a row; an eleventh attempt
    would have been served. *)
Definition acme_limited : provider :=
  {| yf_index := yf_index acme;
     sp500_symbols := sp500_symbols acme;
     ordinary_shares := ordinary_shares acme;
     yf_download := λ chunk attempt tickers d,
       {| prices_df := {[ d := closes d ]};
          shared_errors := if Nat.leb attempt 10 then 1 else 0 |} |}.

(** One ticker, quoted at zero. *)
Definition zero_price : gmap string Q := {[ "A" := 0%Q ]}.

Definition acme_zero : provider :=
  {| yf_index := λ _ d, [d];
     sp500_symbols := ["A"];
     ordinary_shares := λ _, Some [("2024-12-31", 10%Q)];
     yf_download := λ _ _ _ d, {| prices_df := {[ d := zero_price ]}; shared_errors := 0 |} |}.

(** The small market without fundamentals: prices, but no shares
    outstanding, so no market cap. *)
Definition acme_unlisted : provider :=
  {| yf_index := yf_index acme;
     sp500_symbols := sp500_symbols acme;
     ordinary_shares := λ _, None;
     yf_download := yf_download acme |}.

(** * More of the code *)

(** ** database.py *)

(** [get_previous_index_value]: [SELECT index_value FROM index_performance
    WHERE date < ? ORDER BY date DESC LIMIT 1], [fetchone()]; the tuple
    [(index_value,)] is its value, no row is [None]. *)
Definition get_previous_index_value_db (date : string) (st : store) : option Q :=
  snd <$>
    foldr (λ '(d, index_value) acc,
             if String.ltb d date then latest_report acc d index_value else acc)
          None (map_to_list (index_performance st)).

Definition get_previous_index_value (date : string) : M (option Q) :=
  gets (get_previous_index_value_db date).

(** ** stats_helper.py *)

(** [fetch_index_composition_dates]: [SELECT distinct(date) FROM
    index_composition], then [sorted]. *)
Definition fetch_index_composition_dates (st : store) : list string :=
  sorted (elements (set_map (D:=gset string) fst (dom (index_composition st)))).

(** SQLite's [/] on REAL values: NULL ([None]) when the divisor is NULL or
    zero. *)
Definition sql_div (a : Q) (b : option Q) : option Q :=
  match b with
  | Some b => if Qeq_bool b 0 then None else Some (a / b)%Q
  | None => None
  end.

(** SQLite's [ROUND(x, digits)]: the nearest multiple of 10^-digits, a half
    going away from zero; [ROUND(NULL, digits)] is NULL. *)
Definition round_half_away (x : Q) : Z :=
  if Qle_bool 0 x then Qfloor (x + (1 # 2)) else (- Qfloor (- x + (1 # 2)))%Z.

Definition round_to (digits : nat) (r : Q) : Q :=
  (inject_Z (round_half_away (r * inject_Z (10 ^ Z.of_nat digits)))
   / inject_Z (10 ^ Z.of_nat digits))%Q.

Definition sql_round (digits : nat) (x : option Q) : option Q :=
  round_to digits <$> x.

(** [SELECT MAX(date) FROM index_composition WHERE date <= ?] *)
Definition max_date_on_or_before {V} (t : gmap (string * string) V) (date : string)
  : option string :=
  foldr (λ kv acc, if String.leb kv.1.1 date then later kv.1.1 acc else acc)
        None (map_to_list t).

(** [fetch_index_composition]: the rows [A] of the latest snapshot on or
    before the date, joined on the ticker with the market-cap rows [B] of the
    date; a ticker without a row in [B] gives no row. The third column is
    [ROUND(100*(A.ticker_qty*B.closing_price)/(SELECT index_value ...), 2)]. *)
Definition fetch_index_composition (date : string) (st : store)
  : list (string * string * option Q) :=
  match max_date_on_or_before (index_composition st) date with
  | None => []
  | Some d =>
      omap (λ '(ticker, ticker_qty),
              match market_caps st !! (date, ticker) with
              | Some (_, closing_price, _) =>
                  Some (date, ticker,
                        sql_round 2
                          (sql_div (100 * (ticker_qty * closing_price))
                                   (index_performance st !! date)))
              | None => None
              end)
           (rows_on (index_composition st) d)
  end.

(** ** index_computation_wrapper.py *)

(** The loop over [dates_list]: [world cntr] is what the outside answers
    during the call numbered [cntr]; quarterly results are asked for in the
    first call only; an exception ends the loop. The sleep between two calls
    takes time only. *)
Fixpoint run_dates (world : nat → provider) (cntr : nat) (dates_list : list string)
  : M unit :=
  match dates_list with
  | [] => ret tt
  | run_date :: rest =>
      let! _ := compute_index_value (world cntr) run_date (Nat.eqb cntr 0) in
      run_dates world (S cntr) rest
  end.

(** ** Vocabulary *)

(** The fold behind [ORDER BY <key> DESC LIMIT 1] over the selected rows:
    [cond] selects, [key] orders, [val] is the column returned. *)
Definition latest_fold {X} (cond : X → bool) (key : X → string) (val : X → Q)
    (l : list X) : option (string * Q) :=
  foldr (λ x acc, if cond x then latest_report acc (key x) (val x) else acc) None l.

(** ** More stores and providers for closed instances *)

(** The small market with an empty constituents table. *)
Definition acme_empty : provider :=
  {| yf_index := yf_index acme;
     sp500_symbols := [];
     ordinary_shares := ordinary_shares acme;
     yf_download := yf_download acme |}.

(** The small market answering with frames of the day before only. *)
Definition acme_stale : provider :=
  {| yf_index := yf_index acme;
     sp500_symbols := sp500_symbols acme;
     ordinary_shares := ordinary_shares acme;
     yf_download := λ _ _ _ d,
       {| prices_df := {[ "2025-01-01" := closes d ]}; shared_errors := 0 |} |}.

(** A store that holds two tickers since 2025-01-02 and knows the shares
    of three: on the next day "C" is ranked too. *)
Definition held_two : store :=
  {| quarterly_shares := {[ ("A", "2024-12-31") := 10%Q; ("B-B", "2024-12-31") := 10%Q;
                            ("C", "2024-12-31") := 10%Q ]};
     market_caps := ∅;
     index_composition := {[ ("2025-01-02", "A") := 100%Q;
                             ("2025-01-02", "B-B") := 50%Q ]};
     index_performance := {[ "2025-01-02" := 10000%Q ]} |}.



(** Closed goals are settled by evaluation. *)
Ltac evaluated := vm_compute; reflexivity.

(** Membership in a closed list. *)
Ltac listed :=
  vm_compute; repeat first [apply list_elem_of_here | apply list_elem_of_further].

(** * Properties *)

(** ** The string order is a total order *)

Module StrOrdFacts.

Lemma ascii_compare_trans (a b c : ascii) :
  Ascii.compare a b = Lt → Ascii.compare b c = Lt → Ascii.compare a c = Lt.
Proof.
  unfold Ascii.compare. rewrite !N.compare_lt_iff. lia.
Qed.

Lemma ascii_compare_refl (a : ascii) : Ascii.compare a a = Eq.
Proof. unfold Ascii.compare. apply N.compare_refl. Qed.

Lemma compare_refl (s : string) : String.compare s s = Eq.
Proof.
  induction s as [|a s IH]; simpl; [done|].
  by rewrite ascii_compare_refl.
Qed.

Lemma compare_lt_trans (s1 s2 s3 : string) :
  String.compare s1 s2 = Lt → String.compare s2 s3 = Lt →
  String.compare s1 s3 = Lt.
Proof.
  revert s2 s3. induction s1 as [|a s1 IH]; intros [|b s2] [|c s3]; simpl; try done.
  destruct (Ascii.compare a b) eqn:Hab; try done.
  - apply Ascii.compare_eq_iff in Hab as ->.
    destruct (Ascii.compare b c) eqn:Hbc; try done. apply IH.
  - destruct (Ascii.compare b c) eqn:Hbc; try done.
    + apply Ascii.compare_eq_iff in Hbc as <-. by rewrite Hab.
    + by rewrite (ascii_compare_trans a b c).
Qed.

Lemma ltb_lt (s1 s2 : string) : String.ltb s1 s2 = true ↔ String.compare s1 s2 = Lt.
Proof. unfold String.ltb. destruct (String.compare s1 s2); naive_solver. Qed.

Lemma leb_le (s1 s2 : string) : String.leb s1 s2 = true ↔ String.compare s1 s2 ≠ Gt.
Proof. unfold String.leb. destruct (String.compare s1 s2); naive_solver. Qed.

Lemma leb_refl (s : string) : String.leb s s = true.
Proof. unfold String.leb. by rewrite compare_refl. Qed.

Lemma leb_lt_or_eq (s1 s2 : string) :
  String.leb s1 s2 = true ↔ String.ltb s1 s2 = true ∨ s1 = s2.
Proof.
  unfold String.leb, String.ltb.
  destruct (String.compare s1 s2) eqn:H.
  - apply String.compare_eq_iff in H. naive_solver.
  - naive_solver.
  - split; [done|]. intros [?| ->]; [done|]. by rewrite compare_refl in H.
Qed.

Lemma ltb_trans (s1 s2 s3 : string) :
  String.ltb s1 s2 = true → String.ltb s2 s3 = true → String.ltb s1 s3 = true.
Proof. rewrite !ltb_lt. apply compare_lt_trans. Qed.

Lemma leb_trans (s1 s2 s3 : string) :
  String.leb s1 s2 = true → String.leb s2 s3 = true → String.leb s1 s3 = true.
Proof.
  rewrite !leb_lt_or_eq. intros [H1| ->] [H2| ->]; eauto using ltb_trans.
Qed.

Lemma ltb_irrefl (s : string) : String.ltb s s = false.
Proof. unfold String.ltb. by rewrite compare_refl. Qed.

Lemma ltb_leb_false (s1 s2 : string) :
  String.ltb s1 s2 = false ↔ String.leb s2 s1 = true.
Proof.
  unfold String.ltb, String.leb. rewrite (String.compare_antisym s1 s2).
  destruct (String.compare s2 s1); simpl; split; congruence.
Qed.

#[global] Instance le_total : Total StrOrd.le.
Proof. intros a b. apply String.leb_total. Qed.
#[global] Instance le_trans : Transitive StrOrd.le.
Proof. intros a b c. apply leb_trans. Qed.
#[global] Instance le_antisymm : AntiSymm (=) StrOrd.le.
Proof. intros a b. apply String.leb_antisym. Qed.

End StrOrdFacts.

(** ** The store: inserts and the date queries *)

Section InsertOrReplace.
Context `{Countable K} {V : Type}.
Implicit Types (m : gmap K V) (data : list (K * V)).

Lemma insert_or_replace_nil m : insert_or_replace m [] = m.
Proof. done. Qed.

Lemma insert_or_replace_cons m kv data :
  insert_or_replace m (kv :: data) = insert_or_replace (<[kv.1 := kv.2]> m) data.
Proof. done. Qed.

(** The rows written win over the table, the last row of a key over the
    earlier ones. *)
Lemma insert_or_replace_union m data :
  insert_or_replace m data = list_to_map (reverse data) ∪ m.
Proof.
  revert m. induction data as [|[k v] data IH]; intros m.
  - simpl. by rewrite (left_id_L ∅ (∪)).
  - rewrite insert_or_replace_cons, IH, reverse_cons. simpl.
    apply map_eq. intros i.
    rewrite !lookup_union, list_to_map_app, lookup_union. simpl.
    rewrite !lookup_insert. case_decide; simplify_eq.
    + by destruct (list_to_map (reverse data) !! i), (m !! i).
    + rewrite lookup_empty.
      by destruct (list_to_map (reverse data) !! i), (m !! i).
Qed.

Lemma insert_or_replace_idemp m data :
  insert_or_replace (insert_or_replace m data) data = insert_or_replace m data.
Proof.
  rewrite !insert_or_replace_union. rewrite (assoc_L (∪)).
  by rewrite (idemp_L (∪)).
Qed.

Lemma insert_or_replace_lookup_notin m data k :
  k ∉ data.*1 → insert_or_replace m data !! k = m !! k.
Proof.
  revert m. induction data as [|[k' v] data IH]; intros m Hk; [done|].
  rewrite fmap_cons, not_elem_of_cons in Hk. destruct Hk as [Hne Hk].
  rewrite insert_or_replace_cons, IH by done.
  simpl. by rewrite lookup_insert_ne.
Qed.

Lemma insert_or_replace_lookup_in m data k v :
  NoDup data.*1 → (k, v) ∈ data → insert_or_replace m data !! k = Some v.
Proof.
  revert m. induction data as [|[k' v'] data IH]; intros m Hnd Hin.
  - by apply elem_of_nil in Hin.
  - rewrite insert_or_replace_cons. simpl in *.
    apply NoDup_cons in Hnd as [Hnotin Hnd].
    apply elem_of_cons in Hin as [Heq|Hin].
    + simplify_eq. rewrite insert_or_replace_lookup_notin by done.
      by rewrite lookup_insert_eq.
    + by apply IH.
Qed.

End InsertOrReplace.

Section DateQueries.
Context {V : Type}.
Implicit Types (t : gmap (string * string) V) (l : list (string * string * V)).

Lemma later_cases d acc :
  ∃ d1, later d acc = Some d1 ∧ String.leb d d1 = true ∧
        (d1 = d ∨ acc = Some d1) ∧
        (∀ d0, acc = Some d0 → String.leb d0 d1 = true).
Proof.
  destruct acc as [d0|]; simpl.
  - destruct (String.ltb d0 d) eqn:Hlt.
    + exists d. split_and!; auto using StrOrdFacts.leb_refl.
      intros ? [= <-]. apply StrOrdFacts.leb_lt_or_eq. by left.
    + exists d0. apply StrOrdFacts.ltb_leb_false in Hlt. split_and!; auto.
      intros ? [= <-]. apply StrOrdFacts.leb_refl.
  - exists d. split_and!; auto using StrOrdFacts.leb_refl. done.
Qed.

Lemma max_date_fold_None date l :
  max_date_fold date l = None ↔ ∀ kv, kv ∈ l → String.ltb kv.1.1 date = false.
Proof.
  induction l as [|kv l IH]; simpl.
  - split; [|done]. intros _ kv Hin. by apply elem_of_nil in Hin.
  - destruct (String.ltb kv.1.1 date) eqn:Hlt.
    + split.
      * intros Hl.
        destruct (later_cases kv.1.1 (max_date_fold date l)) as (d1 & Hd1 & _).
        congruence.
      * intros Hall. specialize (Hall kv). rewrite Hlt in Hall.
        discriminate Hall. apply list_elem_of_here.
    + rewrite IH. split.
      * intros Hall kv' [->|Hin]%elem_of_cons; auto.
      * intros Hall kv' Hin. apply Hall. by apply list_elem_of_further.
Qed.

Lemma max_date_fold_Some date l d :
  max_date_fold date l = Some d →
  String.ltb d date = true ∧ (∃ kv, kv ∈ l ∧ kv.1.1 = d) ∧
  ∀ kv, kv ∈ l → String.ltb kv.1.1 date = true → String.leb kv.1.1 d = true.
Proof.
  revert d. induction l as [|kv l IH]; intros d; simpl; [done|].
  destruct (String.ltb kv.1.1 date) eqn:Hlt.
  - destruct (later_cases kv.1.1 (max_date_fold date l))
      as (d1 & Hl & Hle & Hor & Hacc).
    rewrite Hl. intros [= <-]. destruct Hor as [->|Hacc1].
    + split_and!; [done|exists kv; split; [apply list_elem_of_here|done]|].
      intros kv' [->|Hin]%elem_of_cons Hlt'; [apply StrOrdFacts.leb_refl|].
      destruct (max_date_fold date l) as [d0|] eqn:Hfold.
      * destruct (IH d0 eq_refl) as (_ & _ & Hmax).
        eapply StrOrdFacts.leb_trans; [by apply Hmax|by apply Hacc].
      * rewrite (proj1 (max_date_fold_None date l) Hfold kv' Hin) in Hlt'.
        discriminate Hlt'.
    + destruct (IH d1 Hacc1) as (Hd1 & (kv1 & Hin1 & Heq1) & Hmax).
      split_and!; [done|exists kv1; split; [by apply list_elem_of_further|done]|].
      intros kv' [->|Hin]%elem_of_cons Hlt'; [done|by apply Hmax].
  - intros Hfold. destruct (IH d Hfold) as (Hd & (kv1 & Hin1 & Heq1) & Hmax).
    split_and!; [done|exists kv1; split; [by apply list_elem_of_further|done]|].
    intros kv' [->|Hin]%elem_of_cons Hlt'; [congruence|by apply Hmax].
Qed.

Lemma max_date_before_Some t date d :
  max_date_before t date = Some d ↔ is_max_date_before t date d.
Proof.
  split.
  - intros Hm. apply max_date_fold_Some in Hm as (Hlt & ([[d1 tk] v] & Hin & Heq) & Hmax).
    simpl in Heq. subst d1. apply elem_of_map_to_list in Hin.
    split_and!; [done|by exists tk, v|].
    intros d' tk' v' Hl Hlt'.
    apply (Hmax ((d', tk'), v')); [by apply elem_of_map_to_list|done].
  - intros (Hlt & (tk & v & Hl) & Hmax).
    destruct (max_date_before t date) as [d0|] eqn:Hm.
    + apply max_date_fold_Some in Hm as (Hlt0 & ([[d1 tk1] v1] & Hin1 & Heq1) & Hmax0).
      simpl in Heq1. subst d1. apply elem_of_map_to_list in Hin1.
      f_equal. apply String.leb_antisym.
      * by eapply Hmax.
      * apply (Hmax0 ((d, tk), v)); [by apply elem_of_map_to_list|done].
    + apply max_date_fold_None with (kv := ((d, tk), v)) in Hm.
      * simpl in Hm. congruence.
      * by apply elem_of_map_to_list.
Qed.

Lemma max_date_before_None t date :
  max_date_before t date = None ↔
  ∀ d' ticker' v', t !! (d', ticker') = Some v' → String.ltb d' date = false.
Proof.
  unfold max_date_before. fold (max_date_fold date (map_to_list t)).
  rewrite max_date_fold_None. split.
  - intros Hall d' tk' v' Hl. apply (Hall ((d', tk'), v')). by apply elem_of_map_to_list.
  - intros Hall [[d' tk'] v'] Hin. apply elem_of_map_to_list in Hin. simpl. eauto.
Qed.

(** The maximum only reads the rows dated before [date]. *)
Lemma max_date_before_ext t1 t2 date :
  (∀ d ticker, String.ltb d date = true → t1 !! (d, ticker) = t2 !! (d, ticker)) →
  max_date_before t1 date = max_date_before t2 date.
Proof.
  intros Hext.
  destruct (max_date_before t1 date) as [d|] eqn:H1; symmetry.
  - apply max_date_before_Some. apply max_date_before_Some in H1 as (Hlt & (tk & v & Hl) & Hmax).
    split_and!; [done|exists tk, v; by rewrite <- Hext|].
    intros d' tk' v' Hl' Hlt'. rewrite <- Hext in Hl' by done. eauto.
  - apply max_date_before_None. intros d' tk' v' Hl'.
    destruct (String.ltb d' date) eqn:Hlt; [|done].
    rewrite <- Hext in Hl' by done.
    by rewrite (proj1 (max_date_before_None t1 date) H1 d' tk' v' Hl') in Hlt.
Qed.

End DateQueries.

Section RowsOn.
Context {V : Type}.
Implicit Types (t : gmap (string * string) V).

Lemma elem_of_rows_on t d ticker v :
  (ticker, v) ∈ rows_on t d ↔ t !! (d, ticker) = Some v.
Proof.
  unfold rows_on. rewrite list_elem_of_fmap. split.
  - intros ([[d' tk] v'] & [= -> ->] & Hin). simpl.
    apply elem_of_map_to_list, map_lookup_filter_Some in Hin as [Hl Hd].
    simpl in Hd. by subst.
  - intros Hl. exists ((d, ticker), v). split; [done|].
    apply elem_of_map_to_list, map_lookup_filter_Some. done.
Qed.

Lemma rows_on_ext t1 t2 d :
  (∀ ticker, t1 !! (d, ticker) = t2 !! (d, ticker)) → rows_on t1 d = rows_on t2 d.
Proof.
  intros Hext. unfold rows_on. f_equal. f_equal.
  apply map_eq. intros [d' tk]. rewrite !map_lookup_filter.
  destruct (decide (d' = d)) as [->|Hne].
  - by rewrite Hext.
  - destruct (t1 !! (d', tk)), (t2 !! (d', tk)); simpl;
      repeat case_guard; simpl in *; congruence.
Qed.

Lemma NoDup_rows_on t d : NoDup (rows_on t d).*1.
Proof.
  unfold rows_on. rewrite <- list_fmap_compose.
  apply NoDup_fmap_2_strong; [|apply NoDup_map_to_list].
  intros [[d1 tk1] v1] [[d2 tk2] v2] Hin1 Hin2. simpl. intros ->.
  apply elem_of_map_to_list, map_lookup_filter_Some in Hin1 as [Hl1 Hd1].
  apply elem_of_map_to_list, map_lookup_filter_Some in Hin2 as [Hl2 Hd2].
  simpl in *. subst. congruence.
Qed.

Lemma rows_on_nil t d :
  rows_on t d = [] ↔ ∀ ticker, t !! (d, ticker) = None.
Proof.
  split.
  - intros Hnil tk. destruct (t !! (d, tk)) as [v|] eqn:Hl; [|done].
    apply elem_of_rows_on in Hl. rewrite Hnil in Hl. by apply elem_of_nil in Hl.
  - intros Hall. destruct (rows_on t d) as [|[tk v] l] eqn:Hr; [done|].
    assert ((tk, v) ∈ rows_on t d) as Hin by (rewrite Hr; apply list_elem_of_here).
    apply elem_of_rows_on in Hin. by rewrite Hall in Hin.
Qed.

End RowsOn.

Lemma elem_of_fetch_recent_composition st date ticker qty :
  (ticker, qty) ∈ fetch_recent_composition_db date st ↔
  ∃ d, max_date_before (index_composition st) date = Some d ∧
       index_composition st !! (d, ticker) = Some qty.
Proof.
  unfold fetch_recent_composition_db.
  destruct (max_date_before (index_composition st) date) as [d|].
  - rewrite elem_of_rows_on. split; [by exists d|]. by intros (? & [= <-] & ?).
  - split; [by intros ?%elem_of_nil|]. by intros (? & ? & _).
Qed.

Lemma fetch_recent_composition_nil st date :
  fetch_recent_composition_db date st = [] ↔
  max_date_before (index_composition st) date = None.
Proof.
  unfold fetch_recent_composition_db.
  destruct (max_date_before (index_composition st) date) as [d|] eqn:Hm; [|done].
  split; [|done]. intros Hnil.
  apply max_date_before_Some in Hm as (_ & (tk & v & Hl) & _).
  by rewrite (proj1 (rows_on_nil _ _) Hnil tk) in Hl.
Qed.

(** What [sorted] returns. *)
Lemma sorted_Permutation l : sorted l ≡ₚ l.
Proof. apply merge_sort_Permutation. Qed.

Lemma sorted_Sorted l : StronglySorted StrOrd.le (sorted l).
Proof. apply StronglySorted_merge_sort; apply _. Qed.

Lemma elem_of_sorted x l : x ∈ sorted l ↔ x ∈ l.
Proof. by rewrite sorted_Permutation. Qed.

Lemma sorted_length l : length (sorted l) = length l.
Proof. by rewrite sorted_Permutation. Qed.

Lemma get_previous_top_100_Permutation st date :
  get_previous_top_100_db date st ≡ₚ (fetch_recent_composition_db date st).*1.
Proof.
  unfold get_previous_top_100_db.
  change (map fst ?l) with (l.*1).
  destruct ((fetch_recent_composition_db date st).*1) eqn:Hl; [done|].
  apply sorted_Permutation.
Qed.

(** Both prior-snapshot queries read the rows dated before [date] only. *)
Lemma fetch_recent_composition_ext st1 st2 date :
  (∀ d ticker, String.ltb d date = true →
     index_composition st1 !! (d, ticker) = index_composition st2 !! (d, ticker)) →
  fetch_recent_composition_db date st1 = fetch_recent_composition_db date st2.
Proof.
  intros Hext. unfold fetch_recent_composition_db.
  rewrite <- (max_date_before_ext _ _ date Hext).
  destruct (max_date_before (index_composition st1) date) as [d|] eqn:Hm; [|done].
  apply rows_on_ext. intros tk. apply Hext.
  by apply max_date_before_Some in Hm as (? & _).
Qed.

Lemma get_previous_top_100_ext st1 st2 date :
  (∀ d ticker, String.ltb d date = true →
     index_composition st1 !! (d, ticker) = index_composition st2 !! (d, ticker)) →
  get_previous_top_100_db date st1 = get_previous_top_100_db date st2.
Proof.
  intros Hext. unfold get_previous_top_100_db.
  by rewrite (fetch_recent_composition_ext st1 st2 date Hext).
Qed.

(** C8. [fetch_recent_composition] and [get_previous_top_100], asked for
    [date], return rows of one snapshot only: the one whose date is the
    latest composition date strictly before [date]. A row is returned
    exactly when it belongs to that snapshot, so no row dated [date] or
    later is ever returned, and the result is empty when the table has no
    date before [date]. *)
Theorem strict_prior_composition_lookup (st : store) (date : string) :
  (∀ ticker qty,
     (ticker, qty) ∈ fetch_recent_composition_db date st ↔
     ∃ d, index_composition st !! (d, ticker) = Some qty ∧
          String.ltb d date = true ∧
          ∀ d' ticker' qty', index_composition st !! (d', ticker') = Some qty' →
            String.ltb d' date = true → String.leb d' d = true)
  ∧ (∀ ticker,
       ticker ∈ get_previous_top_100_db date st ↔
       ∃ qty, (ticker, qty) ∈ fetch_recent_composition_db date st)
  ∧ ((∀ d' ticker' qty', index_composition st !! (d', ticker') = Some qty' →
        String.ltb d' date = false) ↔
     (fetch_recent_composition_db date st = [] ∧ get_previous_top_100_db date st = [])).
Proof.
  split_and!.
  - intros tk q. rewrite elem_of_fetch_recent_composition. split.
    + intros (d & Hm & Hl). exists d. split; [done|].
      apply max_date_before_Some in Hm as (Hlt & _ & Hmax). eauto.
    + intros (d & Hl & Hlt & Hmax). exists d. split; [|done].
      apply max_date_before_Some. split_and!; eauto.
  - intros tk. rewrite get_previous_top_100_Permutation, list_elem_of_fmap. split.
    + intros ([tk' q] & -> & Hin). by exists q.
    + intros (q & Hin). by exists (tk, q).
  - rewrite <- (max_date_before_None (index_composition st) date).
    rewrite <- fetch_recent_composition_nil. split.
    + intros Hnil. split; [done|].
      unfold get_previous_top_100_db. by rewrite Hnil.
    + by intros [? _].
Qed.

(** ** The top-100 query *)

#[global] Instance cap_ge_total : Total cap_ge.
Proof.
  intros a b. unfold cap_ge. rewrite !Qle_bool_iff.
  destruct (Qlt_le_dec a.2 b.2) as [Hlt|Hle]; [right; by apply Qlt_le_weak|by left].
Qed.

#[global] Instance cap_ge_trans : Transitive cap_ge.
Proof.
  intros a b c. unfold cap_ge. rewrite !Qle_bool_iff. intros ? ?.
  by apply Qle_trans with b.2.
Qed.

Lemma elem_of_market_caps_on mc date ticker cap :
  (ticker, cap) ∈ market_caps_on mc date ↔
  ∃ shares close, mc !! (date, ticker) = Some (shares, close, cap).
Proof.
  unfold market_caps_on. rewrite list_elem_of_fmap. split.
  - intros ([tk [[sh cl] cp]] & [= -> ->] & Hin). exists sh, cl.
    by apply elem_of_rows_on.
  - intros (sh & cl & Hl). exists (ticker, (sh, cl, cap)). split; [done|].
    by apply elem_of_rows_on.
Qed.

Lemma market_caps_on_tickers mc date :
  (market_caps_on mc date).*1 = (rows_on mc date).*1.
Proof.
  unfold market_caps_on. rewrite <- list_fmap_compose.
  apply list_fmap_ext. by intros _ [tk [[sh cl] cp]] _.
Qed.

Lemma NoDup_market_caps_on mc date : NoDup (market_caps_on mc date).*1.
Proof. rewrite market_caps_on_tickers. apply NoDup_rows_on. Qed.

Lemma market_caps_on_length mc date :
  length (market_caps_on mc date) = size (filter (λ kv, kv.1.1 = date) mc).
Proof.
  unfold market_caps_on, rows_on. by rewrite !length_fmap, length_map_to_list.
Qed.

Lemma ranked_split mc date :
  ranked mc date = (top_100_rows mc date ++ drop 100 (ranked mc date))%list.
Proof. unfold top_100_rows. fold (ranked mc date). by rewrite take_drop. Qed.

Lemma ranked_Permutation mc date : ranked mc date ≡ₚ market_caps_on mc date.
Proof. apply merge_sort_Permutation. Qed.

Lemma NoDup_ranked mc date : NoDup (ranked mc date).*1.
Proof. rewrite ranked_Permutation. apply NoDup_market_caps_on. Qed.

Lemma get_top_100_Permutation st date :
  get_top_100_stocks_db date st ≡ₚ (top_100_rows (market_caps st) date).*1.
Proof. apply sorted_Permutation. Qed.

Lemma NoDup_get_top_100 st date : NoDup (get_top_100_stocks_db date st).
Proof.
  rewrite get_top_100_Permutation.
  eapply sublist_NoDup; [apply (NoDup_ranked (market_caps st) date)|].
  unfold top_100_rows. fold (ranked (market_caps st) date).
  rewrite fmap_take. apply sublist_take.
Qed.

Lemma elem_of_top_100_rows st date ticker cap :
  (ticker, cap) ∈ top_100_rows (market_caps st) date →
  market_cap_of st date ticker = Some cap.
Proof.
  intros Hin. assert ((ticker, cap) ∈ ranked (market_caps st) date) as Hr.
  { rewrite ranked_split. apply elem_of_app. by left. }
  rewrite ranked_Permutation in Hr.
  apply elem_of_market_caps_on in Hr as (sh & cl & Hl).
  unfold market_cap_of. by rewrite Hl.
Qed.

Lemma elem_of_get_top_100 st date ticker :
  ticker ∈ get_top_100_stocks_db date st ↔
  ∃ cap, (ticker, cap) ∈ top_100_rows (market_caps st) date.
Proof.
  rewrite get_top_100_Permutation, list_elem_of_fmap. split.
  - intros ([tk cp] & -> & Hin). by exists cp.
  - intros (cp & Hin). by exists (ticker, cp).
Qed.

Lemma get_top_100_in_table st date ticker :
  ticker ∈ get_top_100_stocks_db date st →
  is_Some (market_caps st !! (date, ticker)).
Proof.
  intros (cap & Hin%elem_of_top_100_rows)%elem_of_get_top_100.
  unfold market_cap_of in Hin.
  destruct (market_caps st !! (date, ticker)); [by eexists|done].
Qed.

Example top_100_two_caps : get_top_100_stocks_db "2025-01-02" two_caps = ["A"; "B"].
Proof. vm_compute. reflexivity. Qed.

(** C5, as stated, fails: on a day with "A" at cap 1 and "B" at cap 2 the
    query returns ["A"; "B"], which is not in descending market-cap order. *)
Lemma top_100_not_by_market_cap :
  ¬ Sorted (cap_desc_ticker_asc two_caps "2025-01-02")
           (get_top_100_stocks_db "2025-01-02" two_caps).
Proof.
  rewrite top_100_two_caps. intros Hs.
  apply Sorted_inv in Hs as [_ Hhd]. apply HdRel_inv in Hhd.
  unfold cap_desc_ticker_asc in Hhd.
  assert (market_cap_of two_caps "2025-01-02" "A" = Some 1%Q) as Ha by (vm_compute; reflexivity).
  assert (market_cap_of two_caps "2025-01-02" "B" = Some 2%Q) as Hb by (vm_compute; reflexivity).
  rewrite Ha, Hb in Hhd.
  destruct Hhd as [Hlt|[Heq _]]; [by vm_compute in Hlt|by vm_compute in Heq].
Qed.

(** C5, amended. For every store and date, [get_top_100_stocks] returns
    tickers in ascending ticker order, without repetition; as many as the
    day has rows in [market_caps], up to 100; each has a row for the day;
    and no ticker of the day left out has a larger market cap than a ticker
    returned. Which of several tickers of equal cap at the 100th place is
    returned is not fixed by the query. *)
Theorem top_100_query_sorted_by_ticker (st : store) (date : string) :
  StronglySorted StrOrd.le (get_top_100_stocks_db date st)
  ∧ NoDup (get_top_100_stocks_db date st)
  ∧ length (get_top_100_stocks_db date st)
    = min 100 (size (filter (λ kv, kv.1.1 = date) (market_caps st)))
  ∧ (∀ ticker, ticker ∈ get_top_100_stocks_db date st →
       is_Some (market_caps st !! (date, ticker)))
  ∧ (∀ ticker other cap cap',
       ticker ∈ get_top_100_stocks_db date st →
       other ∉ get_top_100_stocks_db date st →
       market_cap_of st date ticker = Some cap →
       market_cap_of st date other = Some cap' →
       (cap' <= cap)%Q).
Proof.
  split_and!.
  - apply sorted_Sorted.
  - apply NoDup_get_top_100.
  - unfold get_top_100_stocks_db. rewrite sorted_length, length_map.
    unfold top_100_rows. rewrite length_take.
    fold (ranked (market_caps st) date).
    by rewrite ranked_Permutation, market_caps_on_length.
  - apply get_top_100_in_table.
  - intros tk other cap cap' Hin Hout Hcap Hcap'.
    apply elem_of_get_top_100 in Hin as (c & Hin).
    rewrite (elem_of_top_100_rows _ _ _ _ Hin) in Hcap. injection Hcap as ->.
    assert ((other, cap') ∈ ranked (market_caps st) date) as Hr.
    { rewrite ranked_Permutation. apply elem_of_market_caps_on.
      unfold market_cap_of in Hcap'.
      destruct (market_caps st !! (date, other)) as [[[sh cl] cp]|]; [|done].
      injection Hcap' as <-. by exists sh, cl. }
    rewrite ranked_split in Hr. apply elem_of_app in Hr as [Hr|Hr].
    { exfalso. apply Hout, elem_of_get_top_100. by exists cap'. }
    apply Qle_bool_iff.
    change (cap_ge (tk, cap) (other, cap')).
    eapply (StronglySorted_app_1_elem_of cap_ge); [|exact Hin|exact Hr].
    rewrite <- ranked_split. apply StronglySorted_merge_sort; apply _.
Qed.

(** ** Rebalancing *)

Lemma insert_or_replace_lookup_fn `{Countable K} {V} (m : gmap K V) data k v :
  (k, v) ∈ data → (∀ v', (k, v') ∈ data → v' = v) →
  insert_or_replace m data !! k = Some v.
Proof.
  revert m. induction data as [|[k' v'] data IH]; intros m Hin Hfn.
  - by apply elem_of_nil in Hin.
  - rewrite insert_or_replace_cons. simpl.
    destruct (decide (k ∈ data.*1)) as [Hk|Hk].
    + apply list_elem_of_fmap in Hk as ([k1 v1] & -> & Hin1). simpl in *.
      assert (v1 = v) as -> by (apply Hfn; by apply list_elem_of_further).
      apply IH; [done|]. intros v2 Hin2. apply Hfn. by apply list_elem_of_further.
    + rewrite insert_or_replace_lookup_notin by done.
      apply elem_of_cons in Hin as [[= <- <-]|Hin].
      * by rewrite lookup_insert_eq.
      * exfalso. apply Hk. apply list_elem_of_fmap. by exists (k, v).
Qed.

Lemma py_div_Ok a b q : py_div a b = Ok q ↔ ¬ (b == 0)%Q ∧ q = (a / b)%Q.
Proof.
  unfold py_div. destruct (Qeq_bool b 0) eqn:Hb.
  - apply Qeq_bool_iff in Hb. split; [done|]. by intros [? _].
  - apply Qeq_bool_neq in Hb. split; [by intros [= <-]|]. by intros [_ ->].
Qed.


Lemma len_nil {A} : len (@nil A) = 0%Q.
Proof. done. Qed.

Lemma len_nonzero {A} (l : list A) : l ≠ [] ↔ ¬ (len l == 0)%Q.
Proof.
  unfold len. destruct l as [|x l]; [by split; intros []|].
  split; [|done]. intros _ Heq.
  unfold Qeq in Heq. simpl in Heq. lia.
Qed.

Lemma for_each_fmap {A B} (f : A → result B) (g : A → B) (l : list A) :
  (∀ x, x ∈ l → f x = Ok (g x)) → for_each f l = Ok (g <$> l).
Proof.
  induction l as [|x l IH]; intros Hf; [done|]. simpl.
  rewrite Hf by apply list_elem_of_here. simpl.
  rewrite IH; [done|]. intros y Hy. apply Hf. by apply list_elem_of_further.
Qed.

Lemma for_each_Ok_inv {A B} (f : A → result B) (l : list A) (ys : list B) :
  for_each f l = Ok ys → Forall2 (λ x y, f x = Ok y) l ys.
Proof.
  revert ys. induction l as [|x l IH]; intros ys; simpl.
  - intros [= <-]. constructor.
  - destruct (f x) as [y|e] eqn:Hfx; [|done]. simpl.
    destruct (for_each f l) as [ys'|e]; [|done]. simpl.
    intros [= <-]. constructor; [done|]. by apply IH.
Qed.


Lemma Forall2_graph {A B} (g : A → B) (l : list A) (ys : list B) :
  Forall2 (λ x y, y = g x) l ys → ys = g <$> l.
Proof. induction 1 as [|x y l ys -> _ IH]; [done|]. by rewrite fmap_cons, IH. Qed.

Section Rebalance.
Variable date : string.
Implicit Types (prices : gmap string Q) (st : store).

Lemma rebalance_rows_Ok prices (new_top_100 : list string) V rows :
  rebalance_rows date prices new_top_100 V = Ok rows ↔
  new_top_100 ≠ [] ∧ all_priced prices new_top_100 ∧
  rows = (λ ticker, (date, ticker, quantity prices new_top_100 V ticker)) <$> new_top_100.
Proof.
  unfold rebalance_rows. split.
  - destruct (py_div 1 (len new_top_100)) as [weight|e] eqn:Hw; [|done]. simpl.
    apply py_div_Ok in Hw as [Hlen ->]. apply len_nonzero in Hlen.
    intros Hrows%for_each_Ok_inv. split; [done|].
    assert (Forall2 (λ ticker row, (∃ p, prices !! ticker = Some p ∧ ¬ (p == 0)%Q) ∧
              row = (date, ticker, quantity prices new_top_100 V ticker))
              new_top_100 rows) as Hall.
    { eapply Forall2_impl; [exact Hrows|]. intros tk row. simpl.
      unfold py_getitem, quantity. destruct (prices !! tk) as [p|]; [|done]. simpl.
      destruct (py_div (1 / len new_top_100 * V) p) as [q|] eqn:Hq; [|done]. simpl.
      apply py_div_Ok in Hq as [Hp ->]. intros [= <-]. split; [by exists p|done]. }
    split.
    + intros tk Hin. apply (Forall2_Forall_l _ (λ tk, ∃ p, prices !! tk = Some p ∧ ¬ (p == 0)%Q))
        in Hall.
      * rewrite Forall_forall in Hall. by apply Hall.
      * apply Forall_forall. by intros ? _ ? [? _].
    + eapply Forall2_graph, Forall2_impl; [exact Hall|]. by intros ? ? [_ ->].
  - intros (Hne & Hpr & ->). apply len_nonzero in Hne.
    rewrite (proj2 (py_div_Ok 1 (len new_top_100) _) (conj Hne eq_refl)). simpl.
    apply for_each_fmap. intros tk Hin.
    destruct (Hpr tk Hin) as (p & Hp & Hnz). unfold py_getitem, quantity.
    rewrite Hp. simpl.
    by rewrite (proj2 (py_div_Ok (1 / len new_top_100 * V) p _) (conj Hnz eq_refl)).
Qed.

(** [len(new_top_100) == 0] is the only way to the first division by zero,
    a price of zero the only way to the second. *)
Lemma rebalance_rows_nil prices V :
  rebalance_rows date prices [] V = Raise ZeroDivisionError.
Proof. done. Qed.

Lemma rebalance_index_Ok prices (new_top_100 : list string) V st :
  new_top_100 ≠ [] → all_priced prices new_top_100 →
  rebalance_index date prices new_top_100 V st =
  (Ok tt, store_new_composition_db
            ((λ ticker, (date, ticker, quantity prices new_top_100 V ticker)) <$> new_top_100)
            st).
Proof.
  intros Hne Hpr. unfold rebalance_index, bind, lift.
  by rewrite (proj2 (rebalance_rows_Ok prices new_top_100 V _) (conj Hne (conj Hpr eq_refl))).
Qed.

Lemma rebalance_index_Ok_inv prices (new_top_100 : list string) V st st' :
  rebalance_index date prices new_top_100 V st = (Ok tt, st') →
  new_top_100 ≠ [] ∧ all_priced prices new_top_100 ∧
  st' = store_new_composition_db
          ((λ ticker, (date, ticker, quantity prices new_top_100 V ticker)) <$> new_top_100)
          st.
Proof.
  unfold rebalance_index, bind, lift.
  destruct (rebalance_rows date prices new_top_100 V) as [rows|e] eqn:Hr; [|done].
  apply rebalance_rows_Ok in Hr as (Hne & Hpr & ->).
  by intros [= <-].
Qed.

Lemma rebalance_index_Raise prices (new_top_100 : list string) V st e :
  (rebalance_index date prices new_top_100 V st).1 = Raise e →
  rebalance_index date prices new_top_100 V st = (Raise e, st).
Proof.
  unfold rebalance_index, bind, lift.
  by destruct (rebalance_rows date prices new_top_100 V) as [rows|e']; simpl; [|intros [= ->]].
Qed.

(** The rows a rebalance writes: one per ticker of the new list, keyed by
    the run date; every other row of the table stays. *)
Lemma rebalanced_lookup_new prices (new_top_100 : list string) V st ticker :
  ticker ∈ new_top_100 →
  index_composition
    (store_new_composition_db
       ((λ ticker, (date, ticker, quantity prices new_top_100 V ticker)) <$> new_top_100) st)
    !! (date, ticker)
  = Some (quantity prices new_top_100 V ticker).
Proof.
  intros Hin. simpl. apply insert_or_replace_lookup_fn.
  - rewrite <- list_fmap_compose. apply list_elem_of_fmap. by exists ticker.
  - intros v'. rewrite <- list_fmap_compose.
    intros (tk & [= -> ->] & _)%list_elem_of_fmap. done.
Qed.

Lemma rebalanced_lookup_other prices (new_top_100 : list string) V st d ticker :
  d ≠ date ∨ ticker ∉ new_top_100 →
  index_composition
    (store_new_composition_db
       ((λ ticker, (date, ticker, quantity prices new_top_100 V ticker)) <$> new_top_100) st)
    !! (d, ticker)
  = index_composition st !! (d, ticker).
Proof.
  intros Hother. simpl. apply insert_or_replace_lookup_notin.
  rewrite <- !list_fmap_compose.
  intros (tk & [= -> ->] & Hin)%list_elem_of_fmap. by destruct Hother.
Qed.

End Rebalance.

(** C6, as stated, fails: with two tickers in the new list the weight is
    1/2, so "A" at price 50 gets (1/2 * 10000)/50 = 100 units and not
    (1/100 * 10000)/50 = 2. *)
Lemma rebalance_weight_not_one_hundredth :
  ∃ st' qty,
    rebalance_index "2025-01-02" two_prices ["A"; "B"] 10000 empty_store = (Ok tt, st')
    ∧ index_composition st' !! ("2025-01-02", "A") = Some qty
    ∧ ¬ (qty == ((1 # 100) * 10000) / 50)%Q.
Proof.
  eexists _, _. split_and!.
  - vm_compute. reflexivity.
  - vm_compute. reflexivity.
  - by vm_compute.
Qed.

(** C6, amended. In every rebalance that completes, the weight is
    1 / len(new_top_100), which is 1/100 when the new list has 100 tickers,
    and for every ticker of the new list (not only for the tickers that
    came in) the row (date, ticker, (weight * value) / price) is written.
    No other row of the composition table changes. *)
Theorem rebalance_equal_weights (date : string) (prices : gmap string Q)
    (new_top_100 : list string) (curr_index_value : Q) (st st' : store) :
  rebalance_index date prices new_top_100 curr_index_value st = (Ok tt, st') →
  (∀ ticker, ticker ∈ new_top_100 →
     ∃ price, prices !! ticker = Some price ∧
       index_composition st' !! (date, ticker)
       = Some ((1 / len new_top_100 * curr_index_value) / price)%Q)
  ∧ (length new_top_100 = 100 → (1 / len new_top_100 == 1 # 100)%Q)
  ∧ (∀ d ticker, d ≠ date ∨ ticker ∉ new_top_100 →
       index_composition st' !! (d, ticker) = index_composition st !! (d, ticker)).
Proof.
  intros (Hne & Hpr & ->)%rebalance_index_Ok_inv. split_and!.
  - intros tk Hin. destruct (Hpr tk Hin) as (p & Hp & _). exists p. split; [done|].
    rewrite rebalanced_lookup_new by done. unfold quantity. by rewrite Hp.
  - intros Hlen. unfold len. by rewrite Hlen.
  - intros d tk Hother. by apply rebalanced_lookup_other.
Qed.

Lemma rebalance_equal_weights_witness :
  rebalance_index "2025-01-02" two_prices ["A"; "B"] 10000 empty_store
  = (Ok tt, (rebalance_index "2025-01-02" two_prices ["A"; "B"] 10000 empty_store).2)
  ∧ ∃ price, two_prices !! "B" = Some price ∧
      index_composition
        (rebalance_index "2025-01-02" two_prices ["A"; "B"] 10000 empty_store).2
        !! ("2025-01-02", "B")
      = Some ((1 / len ["A"; "B"] * 10000) / price)%Q.
Proof.
  split; [evaluated|].
  apply (rebalance_equal_weights "2025-01-02" two_prices ["A"; "B"] 10000 empty_store).
  - evaluated.
  - apply list_elem_of_further, list_elem_of_here.
Defined.

(** ** One run of the pipeline, step by step *)

Lemma revalue_Ok prices rows acc V :
  revalue prices rows acc = Ok V →
  (∀ ticker qty, (ticker, qty) ∈ rows → is_Some (prices !! ticker))
  ∧ (V == acc + holdings_value prices rows)%Q.
Proof.
  revert acc. induction rows as [|[tk q] rows IH]; intros acc; simpl.
  - intros [= <-]. split; [by intros ? ? ?%elem_of_nil|]. ring.
  - unfold py_getitem. destruct (prices !! tk) as [p|] eqn:Hp; [|done]. simpl.
    intros [Hall Hsum]%IH. split.
    + intros tk' q' [[= -> ->]|Hin]%elem_of_cons; [by rewrite Hp|by eapply Hall].
    + rewrite Hsum. ring.
Qed.


Lemma holdings_value_Permutation prices rows rows' :
  rows ≡ₚ rows' → (holdings_value prices rows == holdings_value prices rows')%Q.
Proof.
  induction 1 as [|x l l' _ IH|x y l|l1 l2 l3 _ IH1 _ IH2]; simpl.
  - reflexivity.
  - by rewrite IH.
  - ring.
  - by rewrite IH1.
Qed.

Lemma len_cons {A} (x : A) (l : list A) : (len (x :: l) == len l + 1)%Q.
Proof.
  unfold len. simpl length. rewrite Nat2Z.inj_succ, <- Z.add_1_r.
  by rewrite inject_Z_plus.
Qed.

Lemma holdings_value_const prices rows c :
  (∀ ticker qty, (ticker, qty) ∈ rows → (qty * default 0 (prices !! ticker) == c)%Q) →
  (holdings_value prices rows == len rows * c)%Q.
Proof.
  induction rows as [|[tk q] rows IH]; intros Hc; simpl.
  - change (len []) with 0%Q. ring.
  - rewrite len_cons, IH, (Hc tk q).
    + ring.
    + apply list_elem_of_here.
    + intros tk' q' Hin. apply Hc. by apply list_elem_of_further.
Qed.

Lemma length_fmap_len {A B} (f : A → B) (l : list A) : len (f <$> l) = len l.
Proof. unfold len. by rewrite length_fmap. Qed.

(** The quantities of a rebalance are worth the index value they were
    computed from. *)
Lemma rebalanced_holdings_value prices (new_top_100 : list string) V :
  new_top_100 ≠ [] → all_priced prices new_top_100 →
  (holdings_value prices
     ((λ ticker, (ticker, quantity prices new_top_100 V ticker)) <$> new_top_100) == V)%Q.
Proof.
  intros Hne Hpr. rewrite (holdings_value_const _ _ (V / len new_top_100)%Q).
  - rewrite length_fmap_len. field. by apply len_nonzero.
  - intros tk q (tk' & [= -> ->] & Hin)%list_elem_of_fmap.
    destruct (Hpr tk' Hin) as (p & Hp & Hnz). unfold quantity. rewrite Hp. simpl.
    field. split; first [done|by apply len_nonzero].
Qed.

Section Run.
Variable self : provider.
Variable date : string.
Implicit Types (prices : gmap string Q) (st : store) (flag : bool).

(** [dump_index_value], case by case: the value, then the rebalance if one
    is due, then the index value row. Nothing is written when either of the
    first two raises. *)
Lemma dump_index_value_eq prices (prev_top_100 new_top_100 : list string) st :
  dump_index_value date prices prev_top_100 new_top_100 st =
  match current_value prices (fetch_recent_composition_db date st) with
  | Raise e => (Raise e, st)
  | Ok V =>
      if must_rebalance prev_top_100 new_top_100 then
        match rebalance_rows date prices new_top_100 V with
        | Raise e => (Raise e, st)
        | Ok rows => (Ok V, store_index_value_db date V (store_new_composition_db rows st))
        end
      else (Ok V, store_index_value_db date V st)
  end.
Proof.
  unfold dump_index_value, bind, fetch_recent_composition, gets, lift.
  fold (current_value prices (fetch_recent_composition_db date st)).
  destruct (current_value prices (fetch_recent_composition_db date st)) as [V|e]; [|done].
  unfold track_composition_changes.
  destruct (must_rebalance prev_top_100 new_top_100); [|done].
  unfold rebalance_index, bind, lift.
  by destruct (rebalance_rows date prices new_top_100 V).
Qed.

Lemma refresh_Ok flag st : refresh self flag st = (Ok tt, refreshed self flag st).
Proof.
  unfold refreshed, refresh, fetch_and_store_all_quarterly_shares.
  destruct flag; [|done].
  by destruct (concat (map (fetch_quarterly_shares self) (fetch_sp500_stocks self))).
Qed.

Lemma prepare_Ok flag prices st : prepare self date flag prices st = (Ok tt, prepared self date flag prices st).
Proof.
  unfold prepared, prepare, bind. by rewrite refresh_Ok.
Qed.

Lemma refreshed_frame flag st :
  market_caps (refreshed self flag st) = market_caps st
  ∧ index_composition (refreshed self flag st) = index_composition st
  ∧ index_performance (refreshed self flag st) = index_performance st.
Proof.
  unfold refreshed, refresh, fetch_and_store_all_quarterly_shares.
  destruct flag; [|done].
  by destruct (concat (map (fetch_quarterly_shares self) (fetch_sp500_stocks self))).
Qed.

Lemma prepared_frame flag prices st :
  quarterly_shares (prepared self date flag prices st) = quarterly_shares (refreshed self flag st)
  ∧ index_composition (prepared self date flag prices st) = index_composition st
  ∧ index_performance (prepared self date flag prices st) = index_performance st.
Proof.
  destruct (refreshed_frame flag st) as (_ & Hc & Hp).
  unfold prepared, prepare, bind. rewrite refresh_Ok. simpl. by rewrite Hc, Hp.
Qed.

Lemma compute_index_value_holiday flag st :
  is_trading_day self date "AAPL" = false →
  compute_index_value self date flag st = (Ok tt, st).
Proof. intros Hday. unfold compute_index_value. by rewrite Hday. Qed.

Lemma compute_index_value_no_prices flag st e :
  is_trading_day self date "AAPL" = true →
  fetch_closing_prices self date (fetch_sp500_stocks self) = Raise e →
  compute_index_value self date flag st = (Raise e, refreshed self flag st).
Proof.
  intros Hday Hfetch. unfold compute_index_value. rewrite Hday. simpl.
  unfold bind. fold (refresh self flag). rewrite refresh_Ok.
  unfold lift. by rewrite Hfetch.
Qed.

Lemma compute_index_value_prices flag st prices :
  is_trading_day self date "AAPL" = true →
  fetch_closing_prices self date (fetch_sp500_stocks self) = Ok prices →
  compute_index_value self date flag st =
  let st2 := prepared self date flag prices st in
  let r := dump_index_value date prices (get_previous_top_100_db date st2)
             (get_top_100_stocks_db date st2) st2 in
  (match r.1 with Ok _ => Ok tt | Raise e => Raise e end, r.2).
Proof.
  intros Hday Hfetch. unfold compute_index_value. rewrite Hday. simpl.
  unfold prepared, prepare, bind. fold (refresh self flag). rewrite refresh_Ok.
  unfold lift. rewrite Hfetch. simpl.
  unfold get_previous_top_100, get_top_100_stocks, gets.
  by destruct (dump_index_value _ _ _ _ _) as [[V|e] st3].
Qed.

End Run.

Section RunOutcome.
Variable self : provider.
Variable date : string.
Implicit Types (prices : gmap string Q) (st : store) (flag : bool).

Lemma fetch_recent_composition_table st1 st2 :
  index_composition st1 = index_composition st2 →
  fetch_recent_composition_db date st1 = fetch_recent_composition_db date st2.
Proof. unfold fetch_recent_composition_db. by intros ->. Qed.

Lemma get_previous_top_100_table st1 st2 :
  index_composition st1 = index_composition st2 →
  get_previous_top_100_db date st1 = get_previous_top_100_db date st2.
Proof.
  intros Heq. unfold get_previous_top_100_db.
  by rewrite (fetch_recent_composition_table st1 st2 Heq).
Qed.

Lemma get_top_100_table st1 st2 :
  market_caps st1 = market_caps st2 →
  get_top_100_stocks_db date st1 = get_top_100_stocks_db date st2.
Proof. unfold get_top_100_stocks_db. by intros ->. Qed.

(** A run on a trading day whose prices were fetched: what it has done
    when it returns normally. [prev] is the ticker list of the latest
    snapshot before the day, [new] the day's top 100. *)
Lemma compute_index_value_Ok_inv flag st st' prices :
  is_trading_day self date "AAPL" = true →
  fetch_closing_prices self date (fetch_sp500_stocks self) = Ok prices →
  compute_index_value self date flag st = (Ok tt, st') →
  let st2 := prepared self date flag prices st in
  let prev := get_previous_top_100_db date st in
  let new := get_top_100_stocks_db date st2 in
  ∃ V, current_value prices (fetch_recent_composition_db date st) = Ok V ∧
    if must_rebalance prev new
    then new ≠ [] ∧ all_priced prices new ∧
         st' = store_index_value_db date V
                 (store_new_composition_db (snapshot_rows date prices new V) st2)
    else st' = store_index_value_db date V st2.
Proof.
  intros Hday Hfetch. rewrite (compute_index_value_prices self date flag st prices Hday Hfetch).
  destruct (prepared_frame self date flag prices st) as (_ & Hc & _).
  cbv zeta. rewrite dump_index_value_eq.
  rewrite (fetch_recent_composition_table _ st Hc), (get_previous_top_100_table _ st Hc).
  destruct (current_value prices (fetch_recent_composition_db date st)) as [V|e]; [|done].
  destruct (must_rebalance _ _).
  - destruct (rebalance_rows date prices _ V) as [rows|e] eqn:Hrows; [|done].
    apply rebalance_rows_Ok in Hrows as (Hne & Hpr & ->).
    simpl. intros [= <-]. by exists V.
  - simpl. intros [= <-]. by exists V.
Qed.


End RunOutcome.

(** ** The small market at work *)

Example first_day_run :
  compute_index_value acme "2025-01-02" true empty_store = (Ok tt, after_first_day).
Proof. vm_compute. reflexivity. Qed.

Example first_day_top_100 :
  get_top_100_stocks_db "2025-01-02" after_first_day = ["A"; "B-B"; "C"].
Proof. vm_compute. reflexivity. Qed.

Example second_day_value :
  index_performance (compute_index_value acme "2025-01-03" false after_first_day).2
    !! "2025-01-03" = Some (12600000 # 1080)%Q.
Proof. vm_compute. reflexivity. Qed.

Example held_three_rebalances :
  rows_on (index_composition (compute_index_value acme "2025-01-03" false held_three).2)
          "2025-01-03"
  ≡ₚ [("A", 600 # 6); ("B-B", 600 # 8)]%Q.
Proof. vm_compute. apply Permutation_refl || apply perm_swap. Qed.

(** ** The claims about a day's run *)

(** With no previous list, [len(prev_top_100) == 0] forces the rebalance. *)
Lemma must_rebalance_nil (new_top_100 : list string) : must_rebalance [] new_top_100 = true.
Proof. unfold must_rebalance. apply orb_true_intro. right. by apply bool_decide_eq_true. Qed.

Section Claims.
Variable self : provider.
Variable date : string.
Implicit Types (prices : gmap string Q) (st : store) (flag : bool).

(** C9. When [is_trading_day] is false, the run returns at once and the
    store (all four tables) is the one it started from. *)
Theorem non_trading_day_no_op flag st :
  is_trading_day self date "AAPL" = false →
  compute_index_value self date flag st = (Ok tt, st).
Proof. apply compute_index_value_holiday. Qed.

(** C1. In a run that rebalances (a ticker of the latest snapshot left the
    top 100, or there was no snapshot), the rows written for the day, one
    per ticker of the new top 100 with quantity
    (1/n * value) / price, are worth at the day's prices exactly the index
    value stored for the day; the n weights 1/n sum to 1. *)
Theorem rebalance_preserves_index_value flag st st' prices :
  is_trading_day self date "AAPL" = true →
  fetch_closing_prices self date (fetch_sp500_stocks self) = Ok prices →
  compute_index_value self date flag st = (Ok tt, st') →
  must_rebalance (get_previous_top_100_db date st) (get_top_100_stocks_db date st') = true →
  ∃ V snapshot,
    index_performance st' !! date = Some V
    ∧ snapshot.*1 = get_top_100_stocks_db date st'
    ∧ (∀ ticker qty, (ticker, qty) ∈ snapshot →
         index_composition st' !! (date, ticker) = Some qty ∧
         ∃ price, prices !! ticker = Some price ∧ ¬ (price == 0)%Q ∧
           qty = ((1 / len snapshot * V) / price)%Q)
    ∧ (len snapshot * (1 / len snapshot) == 1)%Q
    ∧ (holdings_value prices snapshot == V)%Q.
Proof.
  intros Hday Hfetch Hrun Hreb.
  destruct (compute_index_value_Ok_inv self date flag st st' prices Hday Hfetch Hrun)
    as (V & _ & Hcase).
  set (st2 := prepared self date flag prices st) in *.
  set (new := get_top_100_stocks_db date st2) in *.
  destruct (must_rebalance (get_previous_top_100_db date st) new) eqn:Hmust.
  - destruct Hcase as (Hne & Hpr & ->).
    change (get_top_100_stocks_db date (store_index_value_db _ _ _)) with new.
    exists V, ((λ ticker, (ticker, quantity prices new V ticker)) <$> new).
    split_and!.
    + simpl. apply lookup_insert_eq.
    + rewrite <- list_fmap_compose. apply list_fmap_id.
    + intros tk q (tk' & [= -> ->] & Hin)%list_elem_of_fmap. split.
      * apply (rebalanced_lookup_new date prices new V st2 tk' Hin).
      * destruct (Hpr tk' Hin) as (p & Hp & Hnz). exists p. split_and!; [done..|].
        unfold quantity. by rewrite length_fmap_len, Hp.
    + rewrite length_fmap_len. field. by apply len_nonzero.
    + by apply rebalanced_holdings_value.
  - subst st'. change (get_top_100_stocks_db date _) with new in Hreb. congruence.
Qed.


(** C3. On a day whose top 100 has the same tickers as the latest
    snapshot before it, a run that completes writes no composition row
    (the table is unchanged) and stores, as the day's index value, the
    value of that snapshot at the day's prices: the sum of quantity x
    price over its rows, in whatever order they are listed. *)
Theorem unchanged_day_revalues_snapshot flag st st' prices :
  is_trading_day self date "AAPL" = true →
  fetch_closing_prices self date (fetch_sp500_stocks self) = Ok prices →
  fetch_recent_composition_db date st ≠ [] →
  (list_to_set (get_previous_top_100_db date st) : gset string)
    = list_to_set (get_top_100_stocks_db date st') →
  compute_index_value self date flag st = (Ok tt, st') →
  index_composition st' = index_composition st
  ∧ ∃ V, index_performance st' !! date = Some V
      ∧ ∀ snapshot, snapshot ≡ₚ fetch_recent_composition_db date st →
          (V == holdings_value prices snapshot)%Q
          ∧ ∀ ticker qty, (ticker, qty) ∈ snapshot → is_Some (prices !! ticker).
Proof.
  intros Hday Hfetch Hsome Hsame Hrun.
  destruct (compute_index_value_Ok_inv self date flag st st' prices Hday Hfetch Hrun)
    as (V & HV & Hcase).
  destruct (prepared_frame self date flag prices st) as (_ & Hc & _).
  set (st2 := prepared self date flag prices st) in *.
  set (new := get_top_100_stocks_db date st2) in *.
  set (prev := get_previous_top_100_db date st) in *.
  assert (get_top_100_stocks_db date st' = new) as Hnew.
  { destruct (must_rebalance prev new); [by destruct Hcase as (_ & _ & ->)|by subst st']. }
  rewrite Hnew in Hsame.
  assert (must_rebalance prev new = false) as Hmust.
  { unfold must_rebalance, removed_stocks. rewrite Hsame.
    apply orb_false_intro; apply bool_decide_eq_false.
    - intros Hne. apply Hne. apply difference_diag_L.
    - intros Hlen. apply Hsome. apply nil_length_inv in Hlen.
      assert (prev ≡ₚ (fetch_recent_composition_db date st).*1) as Hperm
        by apply get_previous_top_100_Permutation.
      rewrite Hlen in Hperm. symmetry in Hperm. apply Permutation_nil_r in Hperm.
      by apply fmap_nil_inv in Hperm. }
  rewrite Hmust in Hcase. subst st'. split; [done|].
  exists V. split; [simpl; apply lookup_insert_eq|].
  intros snapshot Hperm. unfold current_value in HV.
  destruct (fetch_recent_composition_db date st) as [|row rows] eqn:Hrec; [done|].
  apply revalue_Ok in HV as [Hall HV]. split.
  - rewrite HV, (holdings_value_Permutation prices _ _ Hperm). ring.
  - intros tk q Hin. apply (Hall tk q). by rewrite <- Hperm.
Qed.

End Claims.

(** *** Closed instances on the small market *)

Lemma non_trading_day_no_op_witness :
  is_trading_day acme "2025-01-04" "AAPL" = false
  ∧ compute_index_value acme "2025-01-04" true after_first_day = (Ok tt, after_first_day).
Proof.
  split; [evaluated|].
  apply (non_trading_day_no_op acme "2025-01-04" true after_first_day). evaluated.
Defined.

Lemma rebalance_preserves_index_value_witness :
  must_rebalance (get_previous_top_100_db "2025-01-03" held_three)
                 (get_top_100_stocks_db "2025-01-03" after_rebalance) = true
  ∧ ∃ V snapshot,
      index_performance after_rebalance !! "2025-01-03" = Some V
      ∧ snapshot.*1 = get_top_100_stocks_db "2025-01-03" after_rebalance
      ∧ (∀ ticker qty, (ticker, qty) ∈ snapshot →
           index_composition after_rebalance !! ("2025-01-03", ticker) = Some qty ∧
           ∃ price, closes "2025-01-03" !! ticker = Some price ∧ ¬ (price == 0)%Q ∧
             qty = ((1 / len snapshot * V) / price)%Q)
      ∧ (len snapshot * (1 / len snapshot) == 1)%Q
      ∧ (holdings_value (closes "2025-01-03") snapshot == V)%Q.
Proof.
  split; [evaluated|].
  apply (rebalance_preserves_index_value acme "2025-01-03" false held_three
           after_rebalance (closes "2025-01-03")); evaluated.
Defined.


Lemma unchanged_day_revalues_snapshot_witness :
  fetch_recent_composition_db "2025-01-03" after_first_day ≠ []
  ∧ (list_to_set (get_previous_top_100_db "2025-01-03" after_first_day) : gset string)
    = list_to_set (get_top_100_stocks_db "2025-01-03" after_second_day)
  ∧ index_composition after_second_day = index_composition after_first_day
  ∧ ∃ V, index_performance after_second_day !! "2025-01-03" = Some V
      ∧ ∀ snapshot, snapshot ≡ₚ fetch_recent_composition_db "2025-01-03" after_first_day →
          (V == holdings_value (closes "2025-01-03") snapshot)%Q
          ∧ ∀ ticker qty, (ticker, qty) ∈ snapshot →
              is_Some (closes "2025-01-03" !! ticker).
Proof.
  split; [by vm_compute|]. split; [evaluated|].
  apply (unchanged_day_revalues_snapshot acme "2025-01-03" false after_first_day
           after_second_day (closes "2025-01-03")).
  - evaluated.
  - evaluated.
  - by vm_compute.
  - evaluated.
  - evaluated.
Defined.

(** ** Running a day twice *)

Lemma store_eq (st1 st2 : store) :
  quarterly_shares st1 = quarterly_shares st2 →
  market_caps st1 = market_caps st2 →
  index_composition st1 = index_composition st2 →
  index_performance st1 = index_performance st2 →
  st1 = st2.
Proof. destruct st1, st2. simpl. by intros -> -> -> ->. Qed.

Lemma omap_ext_in {A B} (f g : A → option B) (l : list A) :
  (∀ x, x ∈ l → f x = g x) → omap f l = omap g l.
Proof.
  induction l as [|x l IH]; intros Hfg; [done|]. csimpl.
  rewrite (Hfg x) by apply list_elem_of_here.
  rewrite IH; [done|]. intros y Hy. apply Hfg. by apply list_elem_of_further.
Qed.

Section Rerun.
Variable self : provider.
Variable date : string.
Implicit Types (prices : gmap string Q) (st : store) (flag : bool).

Lemma fetch_outstanding_shares_lookup tickers st ticker :
  default None (fetch_outstanding_shares_db date tickers st !! ticker)
  = if decide (ticker ∈ tickers)
    then fetchone_shares (quarterly_shares st) ticker date else None.
Proof.
  unfold fetch_outstanding_shares_db.
  induction tickers as [|tk tickers IH] using rev_ind.
  - cbn [foldl]. rewrite lookup_empty.
    destruct (decide (ticker ∈ [])) as [Hin|_]; [by apply elem_of_nil in Hin|done].
  - rewrite foldl_app. cbn [foldl]. destruct (decide (tk = ticker)) as [->|Hne].
    + rewrite lookup_insert_eq.
      destruct (decide (ticker ∈ (tickers ++ [ticker])%list)) as [_|Hnin]; [done|].
      exfalso. apply Hnin, elem_of_app. right. apply list_elem_of_here.
    + rewrite lookup_insert_ne, IH by done.
      destruct (decide (ticker ∈ tickers)) as [Hin|Hnin];
        destruct (decide (ticker ∈ (tickers ++ [tk])%list)) as [Hin'|Hnin']; try done.
      * exfalso. apply Hnin', elem_of_app. by left.
      * exfalso. apply elem_of_app in Hin' as [?|Hin'%list_elem_of_singleton]; [done|].
        by subst.
Qed.

Lemma fetch_market_data_eq prices st :
  fetch_market_data date prices (fetch_sp500_stocks self) st
  = (Ok (market_rows self date prices (quarterly_shares st)), st).
Proof.
  unfold fetch_market_data, bind, fetch_outstanding_shares, gets, ret. f_equal. f_equal.
  unfold market_rows. apply omap_ext_in. intros tk Hin.
  rewrite fetch_outstanding_shares_lookup. by rewrite decide_True.
Qed.

Lemma prepared_eq flag prices st :
  prepared self date flag prices st
  = store_market_data_db (market_rows self date prices (quarterly_shares (refreshed self flag st)))
      (refreshed self flag st).
Proof.
  unfold prepared, prepare, bind. rewrite refresh_Ok, fetch_market_data_eq. done.
Qed.

Lemma store_quarterly_shares_fixed data st st' :
  quarterly_shares st' = quarterly_shares (store_quarterly_shares_db data st) →
  store_quarterly_shares_db data st' = st'.
Proof.
  unfold store_quarterly_shares_db. cbn [quarterly_shares]. intros Hq.
  apply store_eq; cbn [quarterly_shares market_caps index_composition index_performance];
    try done.
  rewrite Hq. apply insert_or_replace_idemp.
Qed.

Lemma store_market_data_fixed data st st' :
  market_caps st' = market_caps (store_market_data_db data st) →
  store_market_data_db data st' = st'.
Proof.
  unfold store_market_data_db. cbn [market_caps]. intros Hm.
  apply store_eq; cbn [quarterly_shares market_caps index_composition index_performance];
    try done.
  rewrite Hm. apply insert_or_replace_idemp.
Qed.

Lemma refreshed_fixed flag st st' :
  quarterly_shares st' = quarterly_shares (refreshed self flag st) →
  refreshed self flag st' = st'.
Proof.
  unfold refreshed, refresh, fetch_and_store_all_quarterly_shares.
  destruct flag; [|done].
  destruct (concat (map (fetch_quarterly_shares self) (fetch_sp500_stocks self)))
    as [|row rows]; [done|].
  apply store_quarterly_shares_fixed.
Qed.

Lemma prepared_fixed flag prices st st' :
  quarterly_shares st' = quarterly_shares (prepared self date flag prices st) →
  market_caps st' = market_caps (prepared self date flag prices st) →
  prepared self date flag prices st' = st'.
Proof.
  rewrite !prepared_eq. intros Hq Hm.
  change (quarterly_shares (store_market_data_db ?d ?s)) with (quarterly_shares s) in Hq.
  rewrite (refreshed_fixed flag st st' Hq), Hq.
  by apply (store_market_data_fixed _ (refreshed self flag st)).
Qed.

(** A row of the composition table dated another day is left alone by
    [dump_index_value]; the other two tables are not written at all. *)
Lemma dump_index_value_frame prices (prev new : list string) st :
  let st' := (dump_index_value date prices prev new st).2 in
  quarterly_shares st' = quarterly_shares st
  ∧ market_caps st' = market_caps st
  ∧ ∀ d ticker, d ≠ date →
      index_composition st' !! (d, ticker) = index_composition st !! (d, ticker).
Proof.
  rewrite dump_index_value_eq.
  destruct (current_value prices (fetch_recent_composition_db date st)) as [V|e]; [|done].
  destruct (must_rebalance prev new); [|done].
  destruct (rebalance_rows date prices new V) as [rows|e] eqn:Hrows; [|done].
  apply rebalance_rows_Ok in Hrows as (_ & _ & ->).
  split_and!; [done..|]. intros d tk Hd.
  apply (rebalanced_lookup_other date prices new V st d tk). by left.
Qed.

Lemma before_is_another_day d : String.ltb d date = true → d ≠ date.
Proof. intros Hlt ->. by rewrite StrOrdFacts.ltb_irrefl in Hlt. Qed.

(** Running [dump_index_value] again on its own result changes nothing. *)
Lemma dump_index_value_twice prices (prev new : list string) st :
  dump_index_value date prices prev new (dump_index_value date prices prev new st).2
  = dump_index_value date prices prev new st.
Proof.
  assert (fetch_recent_composition_db date (dump_index_value date prices prev new st).2
          = fetch_recent_composition_db date st) as Hrecent.
  { apply fetch_recent_composition_ext. intros d tk Hlt.
    by apply dump_index_value_frame, before_is_another_day. }
  rewrite (dump_index_value_eq date prices prev new (_.2)), Hrecent.
  rewrite dump_index_value_eq.
  destruct (current_value prices (fetch_recent_composition_db date st)) as [V|e]; [|done].
  destruct (must_rebalance prev new).
  - destruct (rebalance_rows date prices new V) as [rows|e]; [|done].
    simpl. f_equal. apply store_eq; simpl; try done.
    + apply insert_or_replace_idemp.
    + apply insert_insert_eq.
  - simpl. f_equal. apply store_eq; simpl; try done. apply insert_insert_eq.
Qed.

Lemma compute_index_value_frame flag st d ticker :
  String.ltb d date = true →
  index_composition (compute_index_value self date flag st).2 !! (d, ticker)
  = index_composition st !! (d, ticker).
Proof.
  intros Hlt%before_is_another_day.
  destruct (is_trading_day self date "AAPL") eqn:Hday.
  - destruct (fetch_closing_prices self date (fetch_sp500_stocks self)) as [prices|e] eqn:Hf.
    + rewrite (compute_index_value_prices self date flag st prices Hday Hf). cbv zeta.
      cbn [snd].
      destruct (prepared_frame self date flag prices st) as (_ & Hc & _).
      rewrite <- Hc. by apply dump_index_value_frame.
    + rewrite (compute_index_value_no_prices self date flag st e Hday Hf). simpl.
      by destruct (refreshed_frame self flag st) as (_ & -> & _).
  - by rewrite compute_index_value_holiday.
Qed.

Lemma compute_index_value_twice flag st :
  compute_index_value self date flag (compute_index_value self date flag st).2
  = compute_index_value self date flag st.
Proof.
  destruct (is_trading_day self date "AAPL") eqn:Hday.
  - destruct (fetch_closing_prices self date (fetch_sp500_stocks self)) as [prices|e] eqn:Hf.
    + rewrite !(compute_index_value_prices self date flag _ prices Hday Hf). cbv zeta.
      cbn [snd].
      set (st2 := prepared self date flag prices st).
      set (prev := get_previous_top_100_db date st2).
      set (new := get_top_100_stocks_db date st2).
      destruct (dump_index_value_frame prices prev new st2) as (Hq & Hm & Hc).
      set (st3 := (dump_index_value date prices prev new st2).2) in *.
      rewrite (prepared_fixed flag prices st st3 Hq Hm).
      rewrite (get_top_100_table date st3 st2 Hm). fold new.
      rewrite (get_previous_top_100_ext st3 st2 date).
      2:{ intros d tk Hlt. by apply Hc, before_is_another_day. }
      fold prev. unfold st3. by rewrite dump_index_value_twice.
    + rewrite !(compute_index_value_no_prices self date flag _ e Hday Hf).
      by rewrite (refreshed_fixed flag st).
  - by rewrite !compute_index_value_holiday.
Qed.

End Rerun.

(** Two runs that get the same answers from outside (trading day,
    universe, quarterly shares, closing prices) do the same to any store,
    however many attempts each download took. *)
Lemma compute_index_value_inputs (first second : provider) (date : string)
    (flag : bool) (st : store) :
  is_trading_day second date "AAPL" = is_trading_day first date "AAPL" →
  fetch_sp500_stocks second = fetch_sp500_stocks first →
  (∀ ticker, fetch_quarterly_shares second ticker = fetch_quarterly_shares first ticker) →
  fetch_closing_prices second date (fetch_sp500_stocks second)
    = fetch_closing_prices first date (fetch_sp500_stocks first) →
  compute_index_value second date flag st = compute_index_value first date flag st.
Proof.
  intros Hday Huniverse Hshares Hprices.
  unfold compute_index_value. rewrite Hday, Hprices, Huniverse.
  unfold fetch_and_store_all_quarterly_shares.
  by rewrite (map_ext _ _ Hshares).
Qed.

(** C4. Running the pipeline again for the same date with the same
    outside answers leaves all four tables as the first run left them, and
    ends the same way. The second run's look-ups of the latest snapshot
    before the date read what the first run's did: the rows the first run
    wrote are dated the date itself, not before it. *)
Theorem rerun_is_idempotent (first second : provider) (date : string)
    (flag : bool) (st : store) :
  is_trading_day second date "AAPL" = is_trading_day first date "AAPL" →
  fetch_sp500_stocks second = fetch_sp500_stocks first →
  (∀ ticker, fetch_quarterly_shares second ticker = fetch_quarterly_shares first ticker) →
  fetch_closing_prices second date (fetch_sp500_stocks second)
    = fetch_closing_prices first date (fetch_sp500_stocks first) →
  (compute_index_value second date flag (compute_index_value first date flag st).2).2
    = (compute_index_value first date flag st).2
  ∧ (compute_index_value second date flag (compute_index_value first date flag st).2).1
    = (compute_index_value first date flag st).1
  ∧ fetch_recent_composition_db date (compute_index_value first date flag st).2
    = fetch_recent_composition_db date st
  ∧ get_previous_top_100_db date (compute_index_value first date flag st).2
    = get_previous_top_100_db date st.
Proof.
  intros Hday Huniverse Hshares Hprices.
  rewrite (compute_index_value_inputs first second date flag _ Hday Huniverse Hshares Hprices).
  rewrite compute_index_value_twice. split_and!; [done..| |].
  - apply fetch_recent_composition_ext. intros d tk Hlt.
    by apply compute_index_value_frame.
  - apply get_previous_top_100_ext. intros d tk Hlt.
    by apply compute_index_value_frame.
Qed.

Lemma rerun_is_idempotent_witness :
  (compute_index_value acme_busy "2025-01-03" false after_rebalance).2 = after_rebalance
  ∧ (compute_index_value acme_busy "2025-01-03" false after_rebalance).1
    = (compute_index_value acme "2025-01-03" false held_three).1
  ∧ fetch_recent_composition_db "2025-01-03" after_rebalance
    = fetch_recent_composition_db "2025-01-03" held_three
  ∧ get_previous_top_100_db "2025-01-03" after_rebalance
    = get_previous_top_100_db "2025-01-03" held_three.
Proof.
  apply (rerun_is_idempotent acme acme_busy "2025-01-03" false held_three).
  - evaluated.
  - evaluated.
  - done.
  - evaluated.
Defined.

(** ** The chunked, retried price download *)

Section Retry.
Context {A : Type}.
Implicit Types (fn : nat → result A).

(** [retry_loop remaining n fn] makes the attempts [n], ..., [n + remaining]
    until one returns. *)
Lemma retry_loop_exhausted remaining attempt_number fn :
  (∀ k, (attempt_number ≤ k ≤ attempt_number + remaining)%nat → ∃ e, fn k = Raise e) →
  retry_loop remaining attempt_number fn = Raise RetryError.
Proof.
  revert attempt_number.
  induction remaining as [|remaining IH]; intros n Hfail; simpl.
  - destruct (Hfail n) as [e ->]; [lia|done].
  - destruct (Hfail n) as [e ->]; [lia|]. apply IH. intros k Hk. apply Hfail. lia.
Qed.

Lemma retry_loop_returns remaining attempt_number fn k a :
  (attempt_number ≤ k ≤ attempt_number + remaining)%nat →
  (∀ j, (attempt_number ≤ j < k)%nat → ∃ e, fn j = Raise e) →
  fn k = Ok a →
  retry_loop remaining attempt_number fn = Ok a.
Proof.
  revert attempt_number.
  induction remaining as [|remaining IH]; intros n Hk Hfail Hok; simpl.
  - assert (k = n) as -> by lia. by rewrite Hok.
  - destruct (decide (k = n)) as [->|Hne]; [by rewrite Hok|].
    destruct (Hfail n) as [e ->]; [lia|]. apply IH; [lia| |done].
    intros j Hj. apply Hfail. lia.
Qed.

(** Whatever the attempts raised, the caller sees [RetryError]. *)
Lemma retry_loop_raises remaining attempt_number fn e :
  retry_loop remaining attempt_number fn = Raise e → e = RetryError.
Proof.
  revert attempt_number.
  induction remaining as [|remaining IH]; intros n; simpl.
  - destruct (fn n); [done|]. by intros [= <-].
  - destruct (fn n); [done|]. apply IH.
Qed.

End Retry.

Section Download.
Variable self : provider.
Variable date : string.

Lemma yf_download_attempt_raises chunk tickers attempt :
  shared_errors (yf_download self chunk attempt tickers date) ≠ 0 →
  yf_download_attempt self date chunk tickers attempt = Raise RateLimitException.
Proof.
  unfold yf_download_attempt.
  by destruct (shared_errors (yf_download self chunk attempt tickers date)).
Qed.

Lemma yf_download_helper_exhausted chunk tickers :
  (∀ attempt, (1 ≤ attempt ≤ 10)%nat →
     shared_errors (yf_download self chunk attempt tickers date) ≠ 0) →
  _yf_download_helper self date chunk tickers = Raise RetryError.
Proof.
  intros Hfail. unfold _yf_download_helper, retry.
  apply retry_loop_exhausted. intros k Hk. exists RateLimitException.
  apply yf_download_attempt_raises, Hfail. simpl in Hk. lia.
Qed.

Lemma download_chunks_exhausted (start i : nat) (chunks : list (list string)) chunk :
  chunks !! i = Some chunk →
  _yf_download_helper self date (start + i) chunk = Raise RetryError →
  download_chunks self date start chunks = Raise RetryError.
Proof.
  revert start i. induction chunks as [|c chunks IH]; intros start i Hi Hraise; [done|].
  simpl. destruct i as [|i]; simpl in Hi.
  - injection Hi as ->. rewrite Nat.add_0_r in Hraise. by rewrite Hraise.
  - destruct (_yf_download_helper self date start c) as [df|e] eqn:Hc; simpl.
    + rewrite (IH (S start) i Hi); [done|].
      by replace (S start + i) with (start + S i) by lia.
    + unfold _yf_download_helper, retry in Hc. by apply retry_loop_raises in Hc as ->.
Qed.

(** The chunks: at most 20 tickers each, and together the tickers in
    order. *)
Lemma sub_tickers_list_lookup (tickers : list string) i chunk :
  sub_tickers_list tickers !! i = Some chunk →
  chunk = take max_chunk_len (drop (i * max_chunk_len) tickers)
  ∧ (length chunk ≤ max_chunk_len)%nat.
Proof.
  unfold sub_tickers_list, range_step, slice.
  rewrite !list_lookup_fmap. intros Hi.
  destruct (seq 0 _ !! i) as [j|] eqn:Hj; [|done].
  apply lookup_seq in Hj as [-> _]. simpl in Hi. injection Hi as <-.
  replace (i * max_chunk_len + max_chunk_len - i * max_chunk_len) with max_chunk_len by lia.
  split; [done|]. rewrite length_take. lia.
Qed.

Lemma chunks_concat (tickers : list string) (n k : nat) :
  (0 < n)%nat → (length tickers ≤ k * n)%nat →
  concat (map (λ i, slice i (i + n) tickers) (map (λ j, j * n) (seq 0 k))) = tickers.
Proof.
  intros Hn. revert tickers. induction k as [|k IH]; intros tickers Hlen.
  - simpl. destruct tickers; [done|simpl in Hlen; lia].
  - rewrite <- cons_seq, <- fmap_S_seq. simpl.
    unfold slice at 1. rewrite Nat.sub_0_r. simpl drop.
    etrans; [|apply (take_drop n tickers)]. f_equal.
    etrans; [|apply (IH (drop n tickers)); rewrite length_drop; lia].
    f_equal. change (S <$> seq 0 k) with (map S (seq 0 k)).
    rewrite !map_map. apply map_ext. intros j. unfold slice.
    rewrite drop_drop.
    replace (S j * n + n - S j * n) with n by lia.
    replace (j * n + n - j * n) with n by lia.
    replace (S j * n) with (n + j * n) by (simpl; lia). done.
Qed.

Lemma sub_tickers_list_concat (tickers : list string) :
  concat (sub_tickers_list tickers) = tickers.
Proof.
  unfold sub_tickers_list, range_step. apply chunks_concat; [unfold max_chunk_len; lia|].
  unfold max_chunk_len.
  pose proof (Nat.div_mod_eq (length tickers + 20 - 1) 20) as Hdiv.
  pose proof (Nat.mod_upper_bound (length tickers + 20 - 1) 20). lia.
Qed.

End Download.

(** C7. When, for some chunk of the universe (chunks hold at most 20
    tickers), every one of the 10 attempts ends with a non-empty
    [yf.shared._ERRORS], the helper raises (tenacity's [RetryError]), so do
    [yf_downloader] and [fetch_closing_prices], and [compute_index_value]
    lets the exception through: the run ends with it, and the index
    performance, index composition and market-cap tables are as before the
    run. *)
Theorem rate_limit_exhaustion_aborts_run (self : provider) (date : string)
    (flag : bool) (st : store) (i : nat) (chunk : list string) :
  is_trading_day self date "AAPL" = true →
  sub_tickers_list (fetch_sp500_stocks self) !! i = Some chunk →
  (∀ attempt, (1 ≤ attempt ≤ 10)%nat →
     shared_errors (yf_download self i attempt chunk date) ≠ 0) →
  (length chunk ≤ 20)%nat
  ∧ _yf_download_helper self date i chunk = Raise RetryError
  ∧ yf_downloader self date (fetch_sp500_stocks self) = Raise RetryError
  ∧ fetch_closing_prices self date (fetch_sp500_stocks self) = Raise RetryError
  ∧ (compute_index_value self date flag st).1 = Raise RetryError
  ∧ index_performance (compute_index_value self date flag st).2 = index_performance st
  ∧ index_composition (compute_index_value self date flag st).2 = index_composition st
  ∧ market_caps (compute_index_value self date flag st).2 = market_caps st.
Proof.
  intros Hday Hchunk Hfail.
  pose proof (yf_download_helper_exhausted self date i chunk Hfail) as Hhelper.
  assert (yf_downloader self date (fetch_sp500_stocks self) = Raise RetryError) as Hdl.
  { unfold yf_downloader.
    by rewrite (download_chunks_exhausted self date 0 i _ chunk Hchunk Hhelper). }
  assert (fetch_closing_prices self date (fetch_sp500_stocks self) = Raise RetryError)
    as Hfetch.
  { unfold fetch_closing_prices. by rewrite Hdl. }
  rewrite (compute_index_value_no_prices self date flag st RetryError Hday Hfetch).
  destruct (refreshed_frame self flag st) as (Hm & Hc & Hp).
  split_and!; try done.
  by apply (sub_tickers_list_lookup (fetch_sp500_stocks self) i chunk).
Qed.

Lemma rate_limit_exhaustion_aborts_run_witness :
  (compute_index_value acme_limited "2025-01-03" true after_first_day).1 = Raise RetryError
  ∧ index_performance (compute_index_value acme_limited "2025-01-03" true after_first_day).2
    = index_performance after_first_day.
Proof.
  destruct (rate_limit_exhaustion_aborts_run acme_limited "2025-01-03" true
              after_first_day 0 ["A"; "B-B"; "C"])
    as (_ & _ & _ & _ & Hraise & Hperf & _).
  - evaluated.
  - evaluated.
  - intros attempt [_ Hle]. simpl.
    apply Nat.leb_le in Hle. by rewrite Hle.
  - by split.
Defined.

(** Nine refusals are survived: the tenth attempt is still made. *)
Example tenth_attempt_is_made :
  retry 10 (λ attempt, if Nat.leb attempt 9 then Raise RateLimitException else Ok attempt)
  = Ok 10.
Proof. reflexivity. Qed.

(** ** Division by zero in a rebalance *)

(** C10, as stated, fails in its last part: a non-empty list whose only
    ticker has a price, zero, makes the rebalance raise
    [ZeroDivisionError] all the same, at [(weight*value)/prices[ticker]];
    so does a first run of the pipeline on such a day. *)
Lemma zero_price_division_by_zero :
  ["A"] ≠ []
  ∧ (∀ ticker, ticker ∈ ["A"] → is_Some (zero_price !! ticker))
  ∧ rebalance_index "2025-01-02" zero_price ["A"] 10000 empty_store
    = (Raise ZeroDivisionError, empty_store)
  ∧ get_top_100_stocks_db "2025-01-02"
      (compute_index_value acme_zero "2025-01-02" true empty_store).2 = ["A"]
  ∧ (compute_index_value acme_zero "2025-01-02" true empty_store).1
    = Raise ZeroDivisionError.
Proof.
  split_and!; [done| |evaluated..].
  intros tk ->%list_elem_of_singleton. by eexists.
Qed.

(** C10, amended. [rebalance_index] on an empty list raises
    [ZeroDivisionError] and writes nothing; on a non-empty list whose
    tickers all have a non-zero price it raises nothing. In a run on a day
    with no earlier snapshot, fetched prices and no market-cap row for the
    day, the rebalance is forced on the empty list: the run ends with
    [ZeroDivisionError], after the market data and before any index value
    or composition row is written. *)
Theorem empty_top_100_division_by_zero (self : provider) (date : string)
    (flag : bool) (st : store) (prices : gmap string Q) :
  is_trading_day self date "AAPL" = true →
  fetch_closing_prices self date (fetch_sp500_stocks self) = Ok prices →
  (∀ d ticker qty, index_composition st !! (d, ticker) = Some qty →
     String.ltb d date = false) →
  (∀ ticker, market_caps (prepared self date flag prices st) !! (date, ticker) = None) →
  compute_index_value self date flag st
    = (Raise ZeroDivisionError, prepared self date flag prices st)
  ∧ index_performance (prepared self date flag prices st) = index_performance st
  ∧ index_composition (prepared self date flag prices st) = index_composition st
  ∧ (∀ prices' V st0,
       rebalance_index date prices' [] V st0 = (Raise ZeroDivisionError, st0))
  ∧ (∀ prices' (new_top_100 : list string) V st0,
       new_top_100 ≠ [] → all_priced prices' new_top_100 →
       ∃ st1, rebalance_index date prices' new_top_100 V st0 = (Ok tt, st1)).
Proof.
  intros Hday Hfetch Hnone Hempty.
  destruct (prepared_frame self date flag prices st) as (_ & Hc & Hp).
  split_and!; [|done|done|done|].
  - rewrite (compute_index_value_prices self date flag st prices Hday Hfetch). cbv zeta.
    set (st2 := prepared self date flag prices st) in *.
    assert (get_top_100_stocks_db date st2 = []) as ->.
    { destruct (get_top_100_stocks_db date st2) as [|tk l] eqn:Htop; [done|].
      assert (tk ∈ get_top_100_stocks_db date st2) as Hin
        by (rewrite Htop; apply list_elem_of_here).
      apply get_top_100_in_table in Hin as [row Hrow]. by rewrite Hempty in Hrow. }
    apply (max_date_before_None (index_composition st) date) in Hnone.
    apply fetch_recent_composition_nil in Hnone.
    rewrite dump_index_value_eq.
    rewrite (fetch_recent_composition_table date st2 st Hc), Hnone.
    rewrite (get_previous_top_100_table date st2 st Hc).
    unfold get_previous_top_100_db. rewrite Hnone. simpl current_value.
    by rewrite must_rebalance_nil, rebalance_rows_nil.
  - intros prices' new V st0 Hne Hpr. eexists. by apply rebalance_index_Ok.
Qed.

Lemma empty_top_100_division_by_zero_witness :
  compute_index_value acme_unlisted "2025-01-02" true empty_store
  = (Raise ZeroDivisionError, empty_store)
  ∧ get_top_100_stocks_db "2025-01-02" empty_store = [].
Proof.
  destruct (empty_top_100_division_by_zero acme_unlisted "2025-01-02" true empty_store
              (closes "2025-01-02")) as (Hrun & _).
  - evaluated.
  - evaluated.
  - intros d tk q Hl. cbn [index_composition empty_store] in Hl.
    by rewrite lookup_empty in Hl.
  - intros tk.
    assert (prepared acme_unlisted "2025-01-02" true (closes "2025-01-02") empty_store
            = empty_store) as -> by evaluated.
    apply lookup_empty.
  - split; [|evaluated]. rewrite Hrun. evaluated.
Defined.

(** * More properties *)

(** ** The latest row before a date *)

Section Latest.
Context {X : Type}.
Variables (cond : X → bool) (key : X → string) (val : X → Q).
Implicit Types (l : list X).

Lemma latest_report_cases acc d v :
  ∃ d1 v1, latest_report acc d v = Some (d1, v1) ∧ String.leb d d1 = true ∧
    ((d1, v1) = (d, v) ∨ acc = Some (d1, v1)) ∧
    (∀ d0 v0, acc = Some (d0, v0) → String.leb d0 d1 = true).
Proof.
  destruct acc as [[d0 v0]|]; simpl.
  - destruct (String.ltb d0 d) eqn:Hlt.
    + exists d, v. split_and!; auto using StrOrdFacts.leb_refl.
      intros ? ? [= <- <-]. apply StrOrdFacts.leb_lt_or_eq. by left.
    + exists d0, v0. apply StrOrdFacts.ltb_leb_false in Hlt. split_and!; auto.
      intros ? ? [= <- <-]. apply StrOrdFacts.leb_refl.
  - exists d, v. split_and!; auto using StrOrdFacts.leb_refl. done.
Qed.

Lemma latest_fold_None l :
  latest_fold cond key val l = None ↔ ∀ x, x ∈ l → cond x = false.
Proof.
  induction l as [|x l IH]; simpl.
  - split; [|done]. intros _ x Hin. by apply elem_of_nil in Hin.
  - destruct (cond x) eqn:Hc.
    + split.
      * intros Hl.
        destruct (latest_report_cases (latest_fold cond key val l) (key x) (val x))
          as (d1 & v1 & Hd1 & _).
        congruence.
      * intros Hall. specialize (Hall x). rewrite Hc in Hall.
        discriminate Hall. apply list_elem_of_here.
    + rewrite IH. split.
      * intros Hall y [->|Hin]%elem_of_cons; auto.
      * intros Hall y Hin. apply Hall. by apply list_elem_of_further.
Qed.

Lemma latest_fold_Some l d v :
  latest_fold cond key val l = Some (d, v) →
  ∃ x, x ∈ l ∧ cond x = true ∧ key x = d ∧ val x = v ∧
       ∀ y, y ∈ l → cond y = true → String.leb (key y) d = true.
Proof.
  revert d v. induction l as [|x l IH]; intros d v; simpl; [done|].
  destruct (cond x) eqn:Hc.
  - destruct (latest_report_cases (latest_fold cond key val l) (key x) (val x))
      as (d1 & v1 & Hl & Hle & Hor & Hacc).
    rewrite Hl. intros [= <- <-]. destruct Hor as [[= -> ->]|Hacc1].
    + exists x. split_and!; [apply list_elem_of_here|done..|].
      intros y [->|Hin]%elem_of_cons Hcy; [apply StrOrdFacts.leb_refl|].
      destruct (latest_fold cond key val l) as [[d0 v0]|] eqn:Hfold.
      * destruct (IH d0 v0 eq_refl) as (_ & _ & _ & _ & _ & Hmax).
        eapply StrOrdFacts.leb_trans; [by apply Hmax|by eapply Hacc].
      * rewrite (proj1 (latest_fold_None l) Hfold y Hin) in Hcy. discriminate Hcy.
    + destruct (IH d1 v1 Hacc1) as (x1 & Hin1 & Hc1 & Hk1 & Hv1 & Hmax).
      exists x1. split_and!; [by apply list_elem_of_further|done..|].
      intros y [->|Hin]%elem_of_cons Hcy; [done|by apply Hmax].
  - intros Hfold. destruct (IH d v Hfold) as (x1 & Hin1 & Hc1 & Hk1 & Hv1 & Hmax).
    exists x1. split_and!; [by apply list_elem_of_further|done..|].
    intros y [->|Hin]%elem_of_cons Hcy; [congruence|by apply Hmax].
Qed.

Lemma latest_fold_max l x :
  x ∈ l → cond x = true →
  (∀ y, y ∈ l → cond y = true → String.leb (key y) (key x) = true) →
  (∀ y, y ∈ l → cond y = true → key y = key x → val y = val x) →
  latest_fold cond key val l = Some (key x, val x).
Proof.
  intros Hin Hc Hmax Huniq.
  destruct (latest_fold cond key val l) as [[d v]|] eqn:Hfold.
  - apply latest_fold_Some in Hfold as (y & Hy & Hcy & <- & <- & Hmaxy).
    assert (key y = key x) as Hk.
    { apply String.leb_antisym; [by apply Hmax|by apply Hmaxy]. }
    by rewrite Hk, (Huniq y Hy Hcy Hk).
  - rewrite (proj1 (latest_fold_None l) Hfold x Hin) in Hc. discriminate Hc.
Qed.

End Latest.

(** ** database.py: shares on or before a date, the previous index value *)

Lemma fetchone_shares_fold (q : gmap (string * string) Q) (ticker date : string) :
  fetchone_shares q ticker date
  = snd <$> latest_fold (λ x, bool_decide (x.1.1 = ticker) && String.leb x.1.2 date)
              (λ x, x.1.2) (λ x, x.2) (map_to_list q).
Proof.
  unfold fetchone_shares, latest_fold. f_equal.
  induction (map_to_list q) as [|[[t rd] shares] l IH]; [done|]. simpl.
  rewrite IH. destruct (decide (t = ticker)) as [->|Hne].
  - by rewrite bool_decide_eq_true_2.
  - by rewrite bool_decide_eq_false_2.
Qed.

Lemma fetchone_shares_Some (q : gmap (string * string) Q) (ticker date : string) (shares : Q) :
  fetchone_shares q ticker date = Some shares ↔
  ∃ report_date, q !! (ticker, report_date) = Some shares ∧
    String.leb report_date date = true ∧
    ∀ rd' s', q !! (ticker, rd') = Some s' → String.leb rd' date = true →
      String.leb rd' report_date = true.
Proof.
  rewrite fetchone_shares_fold. split.
  - destruct (latest_fold _ _ _ _) as [[d v]|] eqn:Hfold; [|done].
    simpl. intros [= ->].
    apply latest_fold_Some in Hfold as ([[t rd] s] & Hin & Hc & <- & <- & Hmax).
    simpl in *. apply andb_prop in Hc as [->%bool_decide_eq_true Hle].
    apply elem_of_map_to_list in Hin. exists rd. split_and!; [done..|].
    intros rd' s' Hl' Hle'. apply (Hmax ((ticker, rd'), s')).
    + by apply elem_of_map_to_list.
    + simpl. by rewrite bool_decide_eq_true_2, Hle'.
  - intros (rd & Hl & Hle & Hmax).
    rewrite (latest_fold_max _ _ _ _ ((ticker, rd), shares)); simpl; [done| | | |].
    + by apply elem_of_map_to_list.
    + by rewrite bool_decide_eq_true_2, Hle.
    + intros [[t rd'] s'] Hin Hc. simpl in *.
      apply andb_prop in Hc as [->%bool_decide_eq_true Hle'].
      apply elem_of_map_to_list in Hin. by eapply Hmax.
    + intros [[t rd'] s'] Hin Hc. simpl in *. intros ->.
      apply andb_prop in Hc as [->%bool_decide_eq_true _].
      apply elem_of_map_to_list in Hin. congruence.
Qed.

Lemma fetchone_shares_None (q : gmap (string * string) Q) (ticker date : string) :
  fetchone_shares q ticker date = None ↔
  ∀ report_date s, q !! (ticker, report_date) = Some s →
    String.leb report_date date = false.
Proof.
  rewrite fetchone_shares_fold, fmap_None, latest_fold_None. split.
  - intros Hall rd s Hl. specialize (Hall ((ticker, rd), s)). simpl in Hall.
    rewrite bool_decide_eq_true_2 in Hall by done. apply Hall.
    by apply elem_of_map_to_list.
  - intros Hall [[t rd] s] Hin. simpl. apply elem_of_map_to_list in Hin.
    destruct (decide (t = ticker)) as [->|Hne].
    + rewrite (Hall rd s Hin). apply andb_false_r.
    + by rewrite bool_decide_eq_false_2.
Qed.

Lemma fetch_outstanding_shares_key (date : string) (tickers : list string) (st : store)
    (ticker : string) :
  fetch_outstanding_shares_db date tickers st !! ticker
  = if decide (ticker ∈ tickers)
    then Some (fetchone_shares (quarterly_shares st) ticker date) else None.
Proof.
  unfold fetch_outstanding_shares_db.
  induction tickers as [|tk tickers IH] using rev_ind.
  - cbn [foldl]. rewrite lookup_empty.
    destruct (decide (ticker ∈ [])) as [Hin|_]; [by apply elem_of_nil in Hin|done].
  - rewrite foldl_app. cbn [foldl]. destruct (decide (tk = ticker)) as [->|Hne].
    + rewrite lookup_insert_eq.
      destruct (decide (ticker ∈ (tickers ++ [ticker])%list)) as [_|Hnin]; [done|].
      exfalso. apply Hnin, elem_of_app. right. apply list_elem_of_here.
    + rewrite lookup_insert_ne, IH by done.
      destruct (decide (ticker ∈ tickers)) as [Hin|Hnin];
        destruct (decide (ticker ∈ (tickers ++ [tk])%list)) as [Hin'|Hnin']; try done.
      * exfalso. apply Hnin', elem_of_app. by left.
      * exfalso. apply elem_of_app in Hin' as [?|Hin'%list_elem_of_singleton]; [done|].
        by subst.
Qed.

(** X1. [fetch_outstanding_shares] returns a dictionary whose keys are
    exactly the tickers asked for. A ticker's entry is the
    [shares_outstanding] of its report with the latest [report_date] on or
    before the date, and [None] exactly when the ticker has no report on or
    before the date; reports dated after the date are never used. *)
Theorem outstanding_shares_latest_report (date : string) (tickers : list string)
    (st : store) (ticker : string) :
  (ticker ∉ tickers → fetch_outstanding_shares_db date tickers st !! ticker = None)
  ∧ (ticker ∈ tickers →
     ∃ entry, fetch_outstanding_shares_db date tickers st !! ticker = Some entry
       ∧ (∀ shares, entry = Some shares ↔
            ∃ report_date, quarterly_shares st !! (ticker, report_date) = Some shares ∧
              String.leb report_date date = true ∧
              ∀ rd' s', quarterly_shares st !! (ticker, rd') = Some s' →
                String.leb rd' date = true → String.leb rd' report_date = true)
       ∧ (entry = None ↔
            ∀ report_date s, quarterly_shares st !! (ticker, report_date) = Some s →
              String.leb report_date date = false)).
Proof.
  rewrite fetch_outstanding_shares_key. split.
  - intros Hnin. by rewrite decide_False.
  - intros Hin. rewrite decide_True by done. eexists. split; [done|]. split.
    + intros shares. apply fetchone_shares_Some.
    + apply fetchone_shares_None.
Qed.

Lemma get_previous_index_value_fold (date : string) (st : store) :
  get_previous_index_value_db date st
  = snd <$> latest_fold (λ x, String.ltb x.1 date) (λ x, x.1) (λ x, x.2)
              (map_to_list (index_performance st)).
Proof.
  unfold get_previous_index_value_db, latest_fold. f_equal.
  induction (map_to_list (index_performance st)) as [|[d v] l IH]; [done|]. simpl.
  by rewrite IH.
Qed.

Lemma get_previous_index_value_Some (date : string) (st : store) (index_value : Q) :
  get_previous_index_value_db date st = Some index_value ↔
  ∃ d, index_performance st !! d = Some index_value ∧ String.ltb d date = true ∧
    ∀ d' v', index_performance st !! d' = Some v' → String.ltb d' date = true →
      String.leb d' d = true.
Proof.
  rewrite get_previous_index_value_fold. split.
  - destruct (latest_fold _ _ _ _) as [[d0 v0]|] eqn:Hfold; [|done].
    simpl. intros [= ->].
    apply latest_fold_Some in Hfold as ([d v'] & Hin & Hc & <- & <- & Hmax).
    simpl in *. apply elem_of_map_to_list in Hin. exists d. split_and!; [done..|].
    intros d' v'' Hl' Hlt'. apply (Hmax (d', v'')); [|done].
    by apply elem_of_map_to_list.
  - intros (d & Hl & Hlt & Hmax).
    rewrite (latest_fold_max _ _ _ _ (d, index_value)); simpl; [done| |done| |].
    + by apply elem_of_map_to_list.
    + intros [d' v'] Hin Hc. simpl in *. apply elem_of_map_to_list in Hin.
      by eapply Hmax.
    + intros [d' v'] Hin Hc. simpl in *. intros ->.
      apply elem_of_map_to_list in Hin. congruence.
Qed.

Lemma get_previous_index_value_None (date : string) (st : store) :
  get_previous_index_value_db date st = None ↔
  ∀ d v, index_performance st !! d = Some v → String.ltb d date = false.
Proof.
  rewrite get_previous_index_value_fold, fmap_None, latest_fold_None. split.
  - intros Hall d v Hl. apply (Hall (d, v)). by apply elem_of_map_to_list.
  - intros Hall [d v] Hin. simpl. apply elem_of_map_to_list in Hin. eauto.
Qed.

(** The query reads the rows dated before [date] only. *)
Lemma get_previous_index_value_ext (date : string) (st1 st2 : store) :
  (∀ d, String.ltb d date = true → index_performance st1 !! d = index_performance st2 !! d) →
  get_previous_index_value_db date st1 = get_previous_index_value_db date st2.
Proof.
  intros Hext.
  destruct (get_previous_index_value_db date st1) as [v|] eqn:H1; symmetry.
  - apply get_previous_index_value_Some.
    apply get_previous_index_value_Some in H1 as (d & Hl & Hlt & Hmax).
    exists d. split_and!; [by rewrite <- Hext|done|].
    intros d' v' Hl' Hlt'. rewrite <- Hext in Hl' by done. eauto.
  - apply get_previous_index_value_None. intros d v Hl.
    destruct (String.ltb d date) eqn:Hlt; [|done].
    rewrite <- Hext in Hl by done.
    by rewrite (proj1 (get_previous_index_value_None date st1) H1 d v Hl) in Hlt.
Qed.

(** X2. [get_previous_index_value] returns the index value stored for the
    latest date strictly before the date asked, never the value of the date
    itself or of a later one, and [None] exactly when no index value is
    stored for an earlier date. *)
Theorem previous_index_value_strictly_before (date : string) (st : store) :
  (∀ index_value,
     get_previous_index_value_db date st = Some index_value ↔
     ∃ d, index_performance st !! d = Some index_value ∧ String.ltb d date = true ∧
       ∀ d' v', index_performance st !! d' = Some v' → String.ltb d' date = true →
         String.leb d' d = true)
  ∧ (get_previous_index_value_db date st = None ↔
     ∀ d v, index_performance st !! d = Some v → String.ltb d date = false).
Proof.
  split; [intros v; apply get_previous_index_value_Some|].
  apply get_previous_index_value_None.
Qed.

(** ** database.py: what a store leaves behind *)

Lemma insert_or_replace_app `{Countable K} {V} (m : gmap K V) (l1 l2 : list (K * V)) :
  insert_or_replace m (l1 ++ l2) = insert_or_replace (insert_or_replace m l1) l2.
Proof. unfold insert_or_replace. apply foldl_app. Qed.

Lemma insert_or_replace_last `{Countable K} {V} (m : gmap K V) (l1 l2 : list (K * V)) k v :
  k ∉ l2.*1 → insert_or_replace m (l1 ++ (k, v) :: l2) !! k = Some v.
Proof.
  intros Hk. rewrite insert_or_replace_app, insert_or_replace_cons.
  rewrite insert_or_replace_lookup_notin by done. simpl. apply lookup_insert_eq.
Qed.

Lemma insert_or_replace_keeps `{Countable K} {V} (m : gmap K V) (data : list (K * V)) k :
  is_Some (m !! k) → is_Some (insert_or_replace m data !! k).
Proof.
  revert m. induction data as [|[k' v'] data IH]; intros m Hm; [done|].
  rewrite insert_or_replace_cons. apply IH. simpl.
  destruct (decide (k' = k)) as [->|Hne].
  - rewrite lookup_insert_eq. by eexists.
  - by rewrite lookup_insert_ne.
Qed.

(** X3. [store_quarterly_shares] is an upsert on (ticker, report_date):
    after the call a key given in the data holds the shares of the last row
    given for it, a key not in the data holds what it held, the other three
    tables are untouched, and storing the same data again changes nothing. *)
Theorem store_quarterly_shares_upsert (data : list shares_row) (st : store) :
  (∀ before after ticker report_date shares,
     data = (before ++ (ticker, report_date, shares) :: after)%list →
     (∀ s, (ticker, report_date, s) ∉ after) →
     quarterly_shares (store_quarterly_shares_db data st) !! (ticker, report_date)
     = Some shares)
  ∧ (∀ ticker report_date,
       (∀ s, (ticker, report_date, s) ∉ data) →
       quarterly_shares (store_quarterly_shares_db data st) !! (ticker, report_date)
       = quarterly_shares st !! (ticker, report_date))
  ∧ market_caps (store_quarterly_shares_db data st) = market_caps st
  ∧ index_composition (store_quarterly_shares_db data st) = index_composition st
  ∧ index_performance (store_quarterly_shares_db data st) = index_performance st
  ∧ store_quarterly_shares_db data (store_quarterly_shares_db data st)
    = store_quarterly_shares_db data st.
Proof.
  split_and!; try done.
  - intros l1 l2 tk rd s -> Hlast. cbn [store_quarterly_shares_db quarterly_shares].
    rewrite map_app. cbn [map].
    apply (insert_or_replace_last _ _ _ (tk, rd) s).
    intros ([k v] & Hk & ([[tk' rd'] s'] & Heq & Hin)%list_elem_of_In%in_map_iff)%list_elem_of_fmap.
    simpl in Hk, Heq. subst k. injection Heq as -> -> _.
    by apply (Hlast s'), list_elem_of_In.
  - intros tk rd Hnone. cbn [store_quarterly_shares_db quarterly_shares].
    apply insert_or_replace_lookup_notin.
    intros ([k v] & Hk & ([[tk' rd'] s'] & Heq & Hin)%list_elem_of_In%in_map_iff)%list_elem_of_fmap.
    simpl in Hk, Heq. subst k. injection Heq as -> -> _.
    by apply (Hnone s'), list_elem_of_In.
  - by apply (store_quarterly_shares_fixed data st).
Qed.

(** X4. [store_new_composition] only adds and replaces rows: a row of the
    table whose (date, ticker) is not among the data is still there after
    the call, also when the data hold other rows for the same date. The
    snapshot of a date stored twice with different tickers is the union of
    the two. *)
Theorem store_new_composition_keeps_rows (data : list composition_row) (st : store)
    (date ticker : string) (qty : Q) :
  index_composition st !! (date, ticker) = Some qty →
  (∀ q, (date, ticker, q) ∉ data) →
  index_composition (store_new_composition_db data st) !! (date, ticker) = Some qty
  ∧ (ticker, qty) ∈ rows_on (index_composition (store_new_composition_db data st)) date
  ∧ ∀ other q, (date, other, q) ∈ data →
      ∃ q', (other, q')
            ∈ rows_on (index_composition (store_new_composition_db data st)) date.
Proof.
  intros Hrow Hnone.
  assert (index_composition (store_new_composition_db data st) !! (date, ticker) = Some qty)
    as Hkept.
  { cbn [store_new_composition_db index_composition].
    rewrite insert_or_replace_lookup_notin; [done|].
    intros ([k v] & Hk & ([[d' tk'] q'] & Heq & Hin)%list_elem_of_In%in_map_iff)%list_elem_of_fmap.
    simpl in Hk, Heq. subst k. injection Heq as -> -> _.
    by apply (Hnone q'), list_elem_of_In. }
  split_and!; [done|by apply elem_of_rows_on|].
  intros other q Hin.
  assert (is_Some (index_composition (store_new_composition_db data st) !! (date, other)))
    as [q' Hq'].
  { cbn [store_new_composition_db index_composition].
    apply list_elem_of_split in Hin as (l1 & l2 & ->).
    rewrite map_app, insert_or_replace_app. cbn [map]. rewrite insert_or_replace_cons.
    apply insert_or_replace_keeps. simpl. rewrite lookup_insert_eq. by eexists. }
  exists q'. by apply elem_of_rows_on.
Qed.

(** X5. [store_index_value] then [get_previous_index_value]: the value
    stored for a day is what the query returns for a later date, as long as
    no index value is stored for a day in between; asked for the day itself,
    the query does not see the value just stored. *)
Theorem index_value_read_back (d date : string) (index_value : Q) (st : store) :
  String.ltb d date = true →
  (∀ d' v', index_performance st !! d' = Some v' → String.ltb d' date = true →
     String.leb d' d = true) →
  get_previous_index_value_db date (store_index_value_db d index_value st)
  = Some index_value
  ∧ get_previous_index_value_db d (store_index_value_db d index_value st)
    = get_previous_index_value_db d st.
Proof.
  intros Hlt Hmax. split.
  - apply get_previous_index_value_Some. exists d.
    cbn [store_index_value_db index_performance].
    split_and!; [apply lookup_insert_eq|done|].
    intros d' v' Hl Hlt'. destruct (decide (d = d')) as [<-|Hne].
    + apply StrOrdFacts.leb_refl.
    + rewrite lookup_insert_ne in Hl by done. by eapply Hmax.
  - apply get_previous_index_value_ext. intros d' Hlt'.
    cbn [store_index_value_db index_performance].
    rewrite lookup_insert_ne; [done|].
    intros ->. by rewrite StrOrdFacts.ltb_irrefl in Hlt'.
Qed.

(** ** compute_index100.py: the market data of the day *)

Lemma fetch_market_data_rows (date : string) (prices : gmap string Q)
    (tickers : list string) (st : store) :
  fetch_market_data date prices tickers st
  = (Ok (omap (λ ticker,
                 match fetchone_shares (quarterly_shares st) ticker date,
                       prices !! ticker with
                 | Some shares_outstanding, Some curr_close =>
                     Some (date, ticker, shares_outstanding, curr_close,
                           (curr_close * shares_outstanding)%Q)
                 | _, _ => None
                 end) tickers), st).
Proof.
  unfold fetch_market_data, bind, fetch_outstanding_shares, gets, ret. f_equal. f_equal.
  apply omap_ext_in. intros tk Hin.
  by rewrite fetch_outstanding_shares_key, decide_True.
Qed.

Lemma omap_sublist {A B} (f : A → option B) (g : B → A) (l : list A) :
  (∀ x y, f x = Some y → g y = x) → g <$> omap f l `sublist_of` l.
Proof.
  intros Hfg. induction l as [|x l IH]; csimpl; [constructor|].
  destruct (f x) as [y|] eqn:Hfx; csimpl.
  - rewrite (Hfg x y Hfx). by constructor.
  - by constructor.
Qed.

(** X6. [fetch_market_data] reads the database and changes nothing in it.
    It returns one row per ticker of the list that has both a shares entry
    (the latest report on or before the date) and a price, in the order of
    the list, with [market_cap = close * shares] and the run date; a ticker
    missing either is left out and raises nothing. *)
Theorem market_data_rows (date : string) (prices : gmap string Q)
    (tickers : list string) (st : store) :
  ∃ rows,
    fetch_market_data date prices tickers st = (Ok rows, st)
    ∧ (∀ row, row ∈ rows ↔
         ∃ ticker shares close,
           ticker ∈ tickers
           ∧ fetchone_shares (quarterly_shares st) ticker date = Some shares
           ∧ prices !! ticker = Some close
           ∧ row = (date, ticker, shares, close, (close * shares)%Q))
    ∧ (λ row : market_row, row.1.1.1.2) <$> rows `sublist_of` tickers.
Proof.
  eexists. split; [apply fetch_market_data_rows|]. split.
  - intros row. rewrite list_elem_of_omap. split.
    + intros (tk & Hin & Hrow).
      destruct (fetchone_shares (quarterly_shares st) tk date) as [sh|] eqn:Hsh; [|done].
      destruct (prices !! tk) as [cl|] eqn:Hcl; [|done].
      injection Hrow as <-. by exists tk, sh, cl.
    + intros (tk & sh & cl & Hin & Hsh & Hcl & ->). exists tk. by rewrite Hsh, Hcl.
  - apply omap_sublist. intros tk row Hrow.
    destruct (fetchone_shares (quarterly_shares st) tk date) as [sh|]; [|done].
    destruct (prices !! tk) as [cl|]; [|done]. by injection Hrow as <-.
Qed.

Section DayMarketCaps.
Variable self : provider.
Variable date : string.
Implicit Types (prices : gmap string Q) (st : store) (flag : bool).

Lemma market_rows_keys prices q k v :
  (k, v) ∈ map (λ '(date, ticker, shares, close, cap), ((date, ticker), (shares, close, cap)))
             (market_rows self date prices q) ↔
  ∃ ticker shares close,
    ticker ∈ fetch_sp500_stocks self ∧ fetchone_shares q ticker date = Some shares
    ∧ prices !! ticker = Some close
    ∧ k = (date, ticker) ∧ v = (shares, close, (close * shares)%Q).
Proof.
  rewrite list_elem_of_In, in_map_iff. unfold market_rows. split.
  - intros ([[[[d tk] sh] cl] cap] & [= <- <-] & Hin%list_elem_of_In).
    apply list_elem_of_omap in Hin as (tk' & Hin & Hrow).
    destruct (fetchone_shares q tk' date) as [sh'|] eqn:Hsh; [|done].
    destruct (prices !! tk') as [cl'|] eqn:Hcl; [|done].
    injection Hrow as <- <- <- <- <-. by exists tk', sh', cl'.
  - intros (tk & sh & cl & Hin & Hsh & Hcl & -> & ->).
    exists (date, tk, sh, cl, (cl * sh)%Q). split; [done|].
    apply list_elem_of_In, list_elem_of_omap. exists tk. by rewrite Hsh, Hcl.
Qed.

Lemma prepared_market_caps_priced flag prices st ticker shares close :
  ticker ∈ fetch_sp500_stocks self →
  fetchone_shares (quarterly_shares (refreshed self flag st)) ticker date = Some shares →
  prices !! ticker = Some close →
  market_caps (prepared self date flag prices st) !! (date, ticker)
  = Some (shares, close, (close * shares)%Q).
Proof.
  intros Hin Hsh Hcl. rewrite prepared_eq.
  cbn [store_market_data_db market_caps]. apply insert_or_replace_lookup_fn.
  - apply market_rows_keys. by exists ticker, shares, close.
  - intros v' (tk & sh & cl & _ & Hsh' & Hcl' & [= <-] & ->)%market_rows_keys.
    congruence.
Qed.

Lemma prepared_market_caps_other flag prices st d ticker :
  d ≠ date ∨ ticker ∉ fetch_sp500_stocks self
  ∨ fetchone_shares (quarterly_shares (refreshed self flag st)) ticker date = None
  ∨ prices !! ticker = None →
  market_caps (prepared self date flag prices st) !! (d, ticker)
  = market_caps st !! (d, ticker).
Proof.
  intros Hmiss. rewrite prepared_eq.
  cbn [store_market_data_db market_caps].
  destruct (refreshed_frame self flag st) as (-> & _ & _).
  apply insert_or_replace_lookup_notin.
  intros ([k v] & Hk & Hin)%list_elem_of_fmap. simpl in Hk. subst k.
  apply market_rows_keys in Hin as (tk & sh & cl & Hin & Hsh & Hcl & [= -> ->] & _).
  destruct Hmiss as [?|[?|[?|?]]]; congruence.
Qed.

Lemma run_market_caps flag st prices :
  is_trading_day self date "AAPL" = true →
  fetch_closing_prices self date (fetch_sp500_stocks self) = Ok prices →
  market_caps (compute_index_value self date flag st).2
  = market_caps (prepared self date flag prices st).
Proof.
  intros Hday Hfetch.
  rewrite (compute_index_value_prices self date flag st prices Hday Hfetch). cbv zeta.
  cbn [snd]. apply dump_index_value_frame.
Qed.


End DayMarketCaps.

(** ** A run writes rows of its own date, and removes none *)

Section History.
Variable self : provider.
Variable date : string.
Implicit Types (prices : gmap string Q) (st : store) (flag : bool).

Lemma refreshed_keeps flag st k :
  is_Some (quarterly_shares st !! k) →
  is_Some (quarterly_shares (refreshed self flag st) !! k).
Proof.
  unfold refreshed, refresh, fetch_and_store_all_quarterly_shares.
  destruct flag; [|done].
  destruct (concat (map (fetch_quarterly_shares self) (fetch_sp500_stocks self)));
    [done|].
  apply insert_or_replace_keeps.
Qed.

Lemma prepared_keeps flag prices st k :
  is_Some (market_caps st !! k) →
  is_Some (market_caps (prepared self date flag prices st) !! k).
Proof.
  rewrite prepared_eq. cbn [store_market_data_db market_caps].
  destruct (refreshed_frame self flag st) as (-> & _ & _).
  apply insert_or_replace_keeps.
Qed.

Lemma dump_index_value_performance prices (prev new : list string) st d :
  d ≠ date →
  index_performance (dump_index_value date prices prev new st).2 !! d
  = index_performance st !! d.
Proof.
  intros Hd. rewrite dump_index_value_eq.
  destruct (current_value prices (fetch_recent_composition_db date st)) as [V|e]; [|done].
  destruct (must_rebalance prev new).
  - destruct (rebalance_rows date prices new V) as [rows|e]; [|done].
    cbn [snd store_index_value_db store_new_composition_db index_performance].
    by rewrite lookup_insert_ne.
  - cbn [snd store_index_value_db index_performance]. by rewrite lookup_insert_ne.
Qed.

Lemma dump_index_value_keeps prices (prev new : list string) st :
  (∀ k, is_Some (index_composition st !! k) →
        is_Some (index_composition (dump_index_value date prices prev new st).2 !! k))
  ∧ (∀ d, is_Some (index_performance st !! d) →
          is_Some (index_performance (dump_index_value date prices prev new st).2 !! d)).
Proof.
  rewrite dump_index_value_eq.
  destruct (current_value prices (fetch_recent_composition_db date st)) as [V|e]; [|done].
  assert (∀ st0 d, is_Some (index_performance st0 !! d) →
            is_Some (index_performance (store_index_value_db date V st0) !! d)) as Hperf.
  { intros st0 d Hd. cbn [store_index_value_db index_performance].
    destruct (decide (date = d)) as [->|Hne].
    - rewrite lookup_insert_eq. by eexists.
    - by rewrite lookup_insert_ne. }
  destruct (must_rebalance prev new).
  - destruct (rebalance_rows date prices new V) as [rows|e]; [|done].
    split; [|apply Hperf]. intros k Hk.
    cbn [snd store_index_value_db store_new_composition_db index_composition].
    by apply insert_or_replace_keeps.
  - split; [done|apply Hperf].
Qed.

Lemma run_keeps_other_days flag st d ticker :
  d ≠ date →
  market_caps (compute_index_value self date flag st).2 !! (d, ticker)
  = market_caps st !! (d, ticker)
  ∧ index_composition (compute_index_value self date flag st).2 !! (d, ticker)
    = index_composition st !! (d, ticker)
  ∧ index_performance (compute_index_value self date flag st).2 !! d
    = index_performance st !! d.
Proof.
  intros Hd. destruct (is_trading_day self date "AAPL") eqn:Hday.
  - destruct (fetch_closing_prices self date (fetch_sp500_stocks self)) as [prices|e] eqn:Hf.
    + rewrite (run_market_caps self date flag st prices Hday Hf).
      rewrite (compute_index_value_prices self date flag st prices Hday Hf). cbv zeta.
      cbn [snd]. destruct (prepared_frame self date flag prices st) as (_ & Hc & Hp).
      split_and!.
      * apply prepared_market_caps_other. by left.
      * rewrite <- Hc. by apply dump_index_value_frame.
      * rewrite <- Hp. by apply dump_index_value_performance.
    + rewrite (compute_index_value_no_prices self date flag st e Hday Hf). cbn [snd].
      by destruct (refreshed_frame self flag st) as (-> & -> & ->).
  - by rewrite compute_index_value_holiday.
Qed.

Lemma run_keeps_keys flag st :
  (∀ k, is_Some (quarterly_shares st !! k) →
        is_Some (quarterly_shares (compute_index_value self date flag st).2 !! k))
  ∧ (∀ k, is_Some (market_caps st !! k) →
          is_Some (market_caps (compute_index_value self date flag st).2 !! k))
  ∧ (∀ k, is_Some (index_composition st !! k) →
          is_Some (index_composition (compute_index_value self date flag st).2 !! k))
  ∧ (∀ d, is_Some (index_performance st !! d) →
          is_Some (index_performance (compute_index_value self date flag st).2 !! d)).
Proof.
  destruct (is_trading_day self date "AAPL") eqn:Hday.
  - destruct (fetch_closing_prices self date (fetch_sp500_stocks self)) as [prices|e] eqn:Hf.
    + rewrite (compute_index_value_prices self date flag st prices Hday Hf). cbv zeta.
      cbn [snd].
      destruct (prepared_frame self date flag prices st) as (Hq & Hc & Hp).
      set (st2 := prepared self date flag prices st) in *.
      destruct (dump_index_value_frame date prices (get_previous_top_100_db date st2)
                  (get_top_100_stocks_db date st2) st2) as (Hq' & Hm' & _).
      destruct (dump_index_value_keeps prices (get_previous_top_100_db date st2)
                  (get_top_100_stocks_db date st2) st2) as (Hck & Hpk).
      split_and!.
      * intros k Hk. rewrite Hq', Hq. by apply refreshed_keeps.
      * intros k Hk. rewrite Hm'. by apply prepared_keeps.
      * intros k Hk. apply Hck. by rewrite Hc.
      * intros d Hd. apply Hpk. by rewrite Hp.
    + rewrite (compute_index_value_no_prices self date flag st e Hday Hf). cbn [snd].
      destruct (refreshed_frame self flag st) as (-> & -> & ->).
      split_and!; [|done..]. intros k. apply refreshed_keeps.
  - by rewrite compute_index_value_holiday.
Qed.

(** X8. Whatever the provider answers and however the run ends, a run for
    a date changes no market-cap, composition or index-value row of another
    date, and removes no row from any of the four tables: every key present
    before the run is present after it. *)
Theorem run_keeps_history flag st :
  (∀ d ticker, d ≠ date →
     market_caps (compute_index_value self date flag st).2 !! (d, ticker)
     = market_caps st !! (d, ticker)
     ∧ index_composition (compute_index_value self date flag st).2 !! (d, ticker)
       = index_composition st !! (d, ticker)
     ∧ index_performance (compute_index_value self date flag st).2 !! d
       = index_performance st !! d)
  ∧ (∀ k, is_Some (quarterly_shares st !! k) →
          is_Some (quarterly_shares (compute_index_value self date flag st).2 !! k))
  ∧ (∀ k, is_Some (market_caps st !! k) →
          is_Some (market_caps (compute_index_value self date flag st).2 !! k))
  ∧ (∀ k, is_Some (index_composition st !! k) →
          is_Some (index_composition (compute_index_value self date flag st).2 !! k))
  ∧ (∀ d, is_Some (index_performance st !! d) →
          is_Some (index_performance (compute_index_value self date flag st).2 !! d)).
Proof.
  split; [intros d tk Hd; by apply run_keeps_other_days|apply run_keeps_keys].
Qed.

End History.

(** ** compute_index100.py: chunks, attempts, and the frame of the day *)

(** X9. [yf_downloader] cuts the tickers into consecutive chunks that
    together are the ticker list in its order: ceil(n / 20) chunks, none
    empty, every one but the last of exactly 20 tickers and the last of at
    most 20. *)
Theorem sub_tickers_list_partition (tickers : list string) :
  concat (sub_tickers_list tickers) = tickers
  ∧ length (sub_tickers_list tickers) = ((length tickers + 19) / 20)%nat
  ∧ ∀ i chunk, sub_tickers_list tickers !! i = Some chunk →
      (1 ≤ length chunk ≤ 20)%nat
      ∧ ((S i < length (sub_tickers_list tickers))%nat → length chunk = 20%nat).
Proof.
  assert (length (sub_tickers_list tickers) = ((length tickers + 19) / 20)%nat) as Hcount.
  { unfold sub_tickers_list, range_step, max_chunk_len.
    rewrite !length_map, length_seq. f_equal. lia. }
  split_and!; [apply sub_tickers_list_concat|done|].
  intros i chunk Hi.
  pose proof (lookup_lt_Some _ _ _ Hi) as Hlt. rewrite Hcount in *.
  apply sub_tickers_list_lookup in Hi as [-> _]. unfold max_chunk_len.
  rewrite length_take, length_drop.
  pose proof (Nat.div_mod_eq (length tickers + 19) 20) as Hdiv.
  pose proof (Nat.mod_upper_bound (length tickers + 19) 20).
  split; [lia|]. intros Hnext. lia.
Qed.

Section Frames.
Variable self : provider.
Variable date : string.

(** X10. With an empty constituents list there is nothing to download:
    [pd.concat] of no frames raises [ValueError], and a run on a trading
    day ends with it, the store untouched. *)
Theorem empty_universe_value_error (flag : bool) (st : store) :
  is_trading_day self date "AAPL" = true →
  fetch_sp500_stocks self = [] →
  yf_downloader self date [] = Raise ValueError
  ∧ compute_index_value self date flag st = (Raise ValueError, st).
Proof.
  intros Hday Hnone. split; [done|].
  rewrite (compute_index_value_no_prices self date flag st ValueError Hday).
  - f_equal. unfold refreshed, refresh, fetch_and_store_all_quarterly_shares.
    rewrite Hnone. by destruct flag.
  - by rewrite Hnone.
Qed.

(** X11. [_yf_download_helper] returns the frame of the first attempt,
    among its ten, that leaves [yf.shared._ERRORS] empty; the exception of
    a refused attempt never reaches the caller, who sees a frame or
    [RetryError]. *)
Theorem helper_returns_first_clean_attempt (chunk : nat) (tickers : list string) (k : nat) :
  (1 ≤ k ≤ 10)%nat →
  (∀ j, (1 ≤ j < k)%nat → shared_errors (yf_download self chunk j tickers date) ≠ 0%nat) →
  shared_errors (yf_download self chunk k tickers date) = 0%nat →
  _yf_download_helper self date chunk tickers
  = Ok (prices_df (yf_download self chunk k tickers date))
  ∧ ∀ chunk' tickers' e,
      _yf_download_helper self date chunk' tickers' = Raise e → e = RetryError.
Proof.
  intros Hk Hfail Hclean. split.
  - unfold _yf_download_helper, retry. apply (retry_loop_returns _ _ _ k).
    + simpl. lia.
    + intros j Hj. exists RateLimitException.
      by apply yf_download_attempt_raises, Hfail.
    + unfold yf_download_attempt. by rewrite Hclean.
  - intros chunk' tickers' e. unfold _yf_download_helper, retry.
    apply retry_loop_raises.
Qed.

(** X12. When the downloads succeed but the frame has no row for the run
    date, [fetch_closing_prices] raises [KeyError] at [prices.loc[date]]
    (after the warning), and the run ends with it: no market-cap,
    composition or index-value row is written. *)
Theorem missing_date_key_error (flag : bool) (st : store) (prices_df : frame) :
  is_trading_day self date "AAPL" = true →
  yf_downloader self date (fetch_sp500_stocks self) = Ok prices_df →
  prices_df !! date = None →
  fetch_closing_prices self date (fetch_sp500_stocks self) = Raise (KeyError date)
  ∧ (compute_index_value self date flag st).1 = Raise (KeyError date)
  ∧ market_caps (compute_index_value self date flag st).2 = market_caps st
  ∧ index_composition (compute_index_value self date flag st).2 = index_composition st
  ∧ index_performance (compute_index_value self date flag st).2 = index_performance st.
Proof.
  intros Hday Hdl Hrow.
  assert (fetch_closing_prices self date (fetch_sp500_stocks self) = Raise (KeyError date))
    as Hfetch.
  { unfold fetch_closing_prices. rewrite Hdl. simpl. by rewrite Hrow. }
  rewrite (compute_index_value_no_prices self date flag st _ Hday Hfetch).
  cbn [fst snd]. by destruct (refreshed_frame self flag st) as (-> & -> & ->).
Qed.

End Frames.

(** ** compute_index100.py: when a rebalance is due, and how a run ends *)

Lemma must_rebalance_true (prev new : list string) :
  must_rebalance prev new = true ↔ prev = [] ∨ ∃ ticker, ticker ∈ prev ∧ ticker ∉ new.
Proof.
  unfold must_rebalance, removed_stocks.
  rewrite orb_true_iff, !bool_decide_eq_true. split.
  - intros [Hne|Hlen]; [right|left; by apply nil_length_inv].
    apply set_choose_L in Hne as [tk Htk].
    apply elem_of_difference in Htk as [Hin Hnin].
    exists tk. split; [by apply elem_of_list_to_set in Hin|].
    intros Hnew. apply Hnin. by apply elem_of_list_to_set.
  - intros [->|(tk & Hin & Hnin)]; [by right|left].
    intros Hempty. apply (not_elem_of_empty (C:=gset string) tk). rewrite <- Hempty.
    apply elem_of_difference. split; [by apply elem_of_list_to_set|].
    intros Hnew. apply Hnin. by apply elem_of_list_to_set in Hnew.
Qed.

Lemma must_rebalance_false (prev new : list string) :
  must_rebalance prev new = false ↔ prev ≠ [] ∧ ∀ ticker, ticker ∈ prev → ticker ∈ new.
Proof.
  rewrite <- not_true_iff_false, must_rebalance_true. split.
  - intros Hnot. split; [intros ->; apply Hnot; by left|].
    intros tk Hin. destruct (decide (tk ∈ new)) as [|Hnin]; [done|].
    exfalso. apply Hnot. right. by exists tk.
  - intros [Hne Hsub] [->|(tk & Hin & Hnin)]; [done|]. by apply Hnin, Hsub.
Qed.

(** X13. [track_composition_changes] rebalances exactly when the previous
    list is empty or has a ticker that the new list lacks. Tickers that
    only the new list has do not count: with a non-empty previous list
    contained in the new one it returns without writing, whatever the new
    list adds. *)
Theorem rebalance_iff_removed_or_first (date : string) (prices : gmap string Q)
    (prev_top_100 new_top_100 : list string) (curr_index_value : Q) (st : store) :
  (must_rebalance prev_top_100 new_top_100 = true ↔
   prev_top_100 = [] ∨ ∃ ticker, ticker ∈ prev_top_100 ∧ ticker ∉ new_top_100)
  ∧ (prev_top_100 = [] ∨ (∃ ticker, ticker ∈ prev_top_100 ∧ ticker ∉ new_top_100) →
     track_composition_changes date prices prev_top_100 new_top_100 curr_index_value st
     = rebalance_index date prices new_top_100 curr_index_value st)
  ∧ (prev_top_100 ≠ [] → (∀ ticker, ticker ∈ prev_top_100 → ticker ∈ new_top_100) →
     track_composition_changes date prices prev_top_100 new_top_100 curr_index_value st
     = (Ok tt, st)).
Proof.
  split_and!.
  - apply must_rebalance_true.
  - intros Hdue%must_rebalance_true. unfold track_composition_changes. by rewrite Hdue.
  - intros Hne Hsub. unfold track_composition_changes.
    by rewrite (proj2 (must_rebalance_false prev_top_100 new_top_100) (conj Hne Hsub)).
Qed.




Section RunEnds.
Variable self : provider.
Variable date : string.
Implicit Types (prices : gmap string Q) (st : store) (flag : bool).

Lemma run_after_prices flag st prices :
  is_trading_day self date "AAPL" = true →
  fetch_closing_prices self date (fetch_sp500_stocks self) = Ok prices →
  compute_index_value self date flag st =
  let st2 := prepared self date flag prices st in
  match current_value prices (fetch_recent_composition_db date st) with
  | Raise e => (Raise e, st2)
  | Ok V =>
      if must_rebalance (get_previous_top_100_db date st) (get_top_100_stocks_db date st2)
      then
        match rebalance_rows date prices (get_top_100_stocks_db date st2) V with
        | Raise e => (Raise e, st2)
        | Ok rows => (Ok tt, store_index_value_db date V (store_new_composition_db rows st2))
        end
      else (Ok tt, store_index_value_db date V st2)
  end.
Proof.
  intros Hday Hfetch.
  rewrite (compute_index_value_prices self date flag st prices Hday Hfetch). cbv zeta.
  destruct (prepared_frame self date flag prices st) as (_ & Hc & _).
  rewrite dump_index_value_eq.
  rewrite (fetch_recent_composition_table date _ st Hc).
  rewrite (get_previous_top_100_table date _ st Hc).
  destruct (current_value prices (fetch_recent_composition_db date st)) as [V|e]; [|done].
  destruct (must_rebalance _ _); [|done].
  by destruct (rebalance_rows date prices _ V).
Qed.



(** X16. In a run that completes on a day whose top 100 contains every
    ticker of the latest earlier snapshot, the composition table is left as
    it was, also when the top 100 has tickers the snapshot lacks: such a
    ticker gets no row, and the day's index value is the value of the old
    snapshot. *)
Theorem additions_alone_do_not_rebalance flag st st' prices :
  is_trading_day self date "AAPL" = true →
  fetch_closing_prices self date (fetch_sp500_stocks self) = Ok prices →
  fetch_recent_composition_db date st ≠ [] →
  (∀ ticker, ticker ∈ get_previous_top_100_db date st →
     ticker ∈ get_top_100_stocks_db date st') →
  compute_index_value self date flag st = (Ok tt, st') →
  index_composition st' = index_composition st
  ∧ (∀ ticker, ticker ∈ get_top_100_stocks_db date st' →
       ticker ∉ get_previous_top_100_db date st →
       index_composition st' !! (date, ticker) = index_composition st !! (date, ticker))
  ∧ ∃ V, index_performance st' !! date = Some V
      ∧ (V == holdings_value prices (fetch_recent_composition_db date st))%Q.
Proof.
  intros Hday Hfetch Hsome Hsub Hrun.
  pose proof Hrun as Hrun'.
  rewrite (run_after_prices flag st prices Hday Hfetch) in Hrun'. cbv zeta in Hrun'.
  assert (market_caps st' = market_caps (prepared self date flag prices st)) as Hm.
  { rewrite <- (run_market_caps self date flag st prices Hday Hfetch). by rewrite Hrun. }
  rewrite <- (get_top_100_table date st' _ Hm) in Hrun'.
  destruct (prepared_frame self date flag prices st) as (_ & Hc & Hp).
  assert (get_previous_top_100_db date st ≠ []) as Hprev.
  { intros Hnil. apply Hsome.
    pose proof (get_previous_top_100_Permutation st date) as Hperm.
    rewrite Hnil in Hperm. symmetry in Hperm. apply Permutation_nil_r in Hperm.
    by apply fmap_nil_inv in Hperm. }
  rewrite (proj2 (must_rebalance_false _ _) (conj Hprev Hsub)) in Hrun'.
  destruct (current_value prices (fetch_recent_composition_db date st)) as [V|e] eqn:HV;
    [|done].
  injection Hrun' as <-.
  assert (index_composition (store_index_value_db date V (prepared self date flag prices st))
          = index_composition st) as Hsame by done.
  split_and!; [done|by intros; rewrite Hsame|].
  exists V. split; [cbn [store_index_value_db index_performance]; apply lookup_insert_eq|].
  unfold current_value in HV.
  destruct (fetch_recent_composition_db date st) as [|row rows] eqn:Hrec; [done|].
  apply revalue_Ok in HV as [_ HV]. rewrite HV. ring.
Qed.

End RunEnds.

(** ** compute_index100.py: the universe and the quarterly shares *)

Lemma replace_dot_no_dot (symbol : string) :
  "."%char ∉ list_ascii_of_string (replace_dot symbol).
Proof.
  induction symbol as [|c rest IH]; simpl; [apply not_elem_of_nil|].
  apply not_elem_of_cons. split; [|done].
  destruct (Ascii.eqb c ".") eqn:Hc; [done|]. by apply Ascii.eqb_neq in Hc.
Qed.

Lemma replace_dot_length (symbol : string) :
  String.length (replace_dot symbol) = String.length symbol.
Proof. induction symbol as [|c rest IH]; simpl; [done|]. by rewrite IH. Qed.

Lemma replace_dot_fixed (symbol : string) :
  "."%char ∉ list_ascii_of_string symbol → replace_dot symbol = symbol.
Proof.
  induction symbol as [|c rest IH]; simpl; [done|].
  intros [Hc Hrest]%not_elem_of_cons. rewrite IH by done.
  destruct (Ascii.eqb c ".") eqn:Heq; [|done].
  apply Ascii.eqb_eq in Heq. congruence.
Qed.

(** X17. [fetch_sp500_stocks] returns one ticker per symbol of the table,
    in the table's order and of the symbol's length; no ticker contains a
    '.', and a symbol without '.' is returned as it is. *)
Theorem fetch_sp500_stocks_no_dots (self : provider) :
  length (fetch_sp500_stocks self) = length (sp500_symbols self)
  ∧ (∀ ticker, ticker ∈ fetch_sp500_stocks self →
       "."%char ∉ list_ascii_of_string ticker)
  ∧ (∀ i symbol, sp500_symbols self !! i = Some symbol →
       ∃ ticker, fetch_sp500_stocks self !! i = Some ticker
         ∧ String.length ticker = String.length symbol
         ∧ ("."%char ∉ list_ascii_of_string symbol → ticker = symbol)).
Proof.
  unfold fetch_sp500_stocks. split_and!.
  - apply length_map.
  - intros tk (symbol & <- & _)%list_elem_of_In%in_map_iff.
    apply replace_dot_no_dot.
  - intros i symbol Hi. exists (replace_dot symbol). split_and!.
    + change (map replace_dot ?l) with (replace_dot <$> l).
      by rewrite list_lookup_fmap, Hi.
    + apply replace_dot_length.
    + apply replace_dot_fixed.
Qed.

Lemma NoDup_fst_agree {A B} (l : list (A * B)) x y1 y2 :
  NoDup l.*1 → (x, y1) ∈ l → (x, y2) ∈ l → y1 = y2.
Proof.
  induction l as [|[x' y'] l IH]; csimpl; [by intros _ ?%elem_of_nil|].
  intros [Hnin Hnd]%NoDup_cons H1 H2.
  apply elem_of_cons in H1 as [H1|H1]; apply elem_of_cons in H2 as [H2|H2].
  - congruence.
  - injection H1 as <- <-. exfalso. apply Hnin, list_elem_of_fmap. by exists (x, y2).
  - injection H2 as <- <-. exfalso. apply Hnin, list_elem_of_fmap. by exists (x, y1).
  - by apply IH.
Qed.

Section QuarterlyShares.
Variable self : provider.
Implicit Types (tickers : list string) (st : store).

Lemma fetch_and_store_all_eq tickers st :
  fetch_and_store_all_quarterly_shares self tickers st
  = (Ok tt, store_quarterly_shares_db
              (concat (map (fetch_quarterly_shares self) tickers)) st).
Proof.
  unfold fetch_and_store_all_quarterly_shares.
  destruct (concat (map (fetch_quarterly_shares self) tickers)) as [|row rows]; [|done].
  unfold ret. f_equal. by apply store_eq.
Qed.

Lemma elem_of_quarterly_rows tickers ticker report_date shares :
  (ticker, report_date, shares) ∈ concat (map (fetch_quarterly_shares self) tickers) ↔
  ticker ∈ tickers ∧
  ∃ data, ordinary_shares self ticker = Some data ∧ (report_date, shares) ∈ data.
Proof.
  split.
  - intros (rows & (tk & <- & Hin)%in_map_iff & Hrow%list_elem_of_In)%list_elem_of_In%in_concat.
    unfold fetch_quarterly_shares in Hrow.
    destruct (ordinary_shares self tk) as [data|] eqn:Hdata;
      [|by apply elem_of_nil in Hrow].
    apply list_elem_of_In, in_map_iff in Hrow as ([rd s] & [= -> -> ->] & Hrow).
    split; [by apply list_elem_of_In|]. exists data. split; [done|by apply list_elem_of_In].
  - intros (Hin & data & Hdata & Hrow). apply list_elem_of_In, in_concat.
    exists (fetch_quarterly_shares self ticker).
    split; [apply in_map, list_elem_of_In, Hin|].
    unfold fetch_quarterly_shares. rewrite Hdata.
    apply in_map_iff. exists (report_date, shares). by split; [|apply list_elem_of_In].
Qed.

(** X18. [fetch_and_store_all_quarterly_shares] never raises. It stores,
    for every ticker of the list that has the balance-sheet column, each
    (report date, shares) pair under (ticker, report_date); a ticker
    without the column, or not in the list, keeps the rows it had; the
    other three tables are untouched. *)
Theorem quarterly_shares_stored tickers st :
  (fetch_and_store_all_quarterly_shares self tickers st).1 = Ok tt
  ∧ (∀ ticker data report_date shares,
       ticker ∈ tickers → ordinary_shares self ticker = Some data →
       NoDup data.*1 → (report_date, shares) ∈ data →
       quarterly_shares (fetch_and_store_all_quarterly_shares self tickers st).2
         !! (ticker, report_date) = Some shares)
  ∧ (∀ ticker report_date,
       ticker ∉ tickers ∨ ordinary_shares self ticker = None →
       quarterly_shares (fetch_and_store_all_quarterly_shares self tickers st).2
         !! (ticker, report_date) = quarterly_shares st !! (ticker, report_date))
  ∧ market_caps (fetch_and_store_all_quarterly_shares self tickers st).2 = market_caps st
  ∧ index_composition (fetch_and_store_all_quarterly_shares self tickers st).2
    = index_composition st
  ∧ index_performance (fetch_and_store_all_quarterly_shares self tickers st).2
    = index_performance st.
Proof.
  rewrite fetch_and_store_all_eq. cbn [fst snd]. split_and!; try done.
  - intros tk data rd s Hin Hdata Hnd Hrow.
    cbn [store_quarterly_shares_db quarterly_shares].
    apply insert_or_replace_lookup_fn.
    + apply list_elem_of_In, in_map_iff. exists (tk, rd, s). split; [done|].
      apply list_elem_of_In, elem_of_quarterly_rows. split; [done|]. by exists data.
    + intros s' ([[tk' rd'] s''] & [= -> -> ->] & Hrow')%list_elem_of_In%in_map_iff.
      apply list_elem_of_In, elem_of_quarterly_rows in Hrow' as (_ & data' & Hdata' & Hrow').
      assert (data' = data) as -> by congruence.
      by apply (NoDup_fst_agree data rd s' s).
  - intros tk rd Hmiss. cbn [store_quarterly_shares_db quarterly_shares].
    apply insert_or_replace_lookup_notin.
    intros ([k v] & Hk & ([[tk' rd'] s'] & Heq & Hrow)%list_elem_of_In%in_map_iff)%list_elem_of_fmap.
    simpl in Hk, Heq. subst k. injection Heq as -> -> _.
    apply list_elem_of_In, elem_of_quarterly_rows in Hrow as (Hin & data & Hdata & _).
    destruct Hmiss; [done|congruence].
Qed.

End QuarterlyShares.

(** ** stats_helper.py: the rebalance dates *)

Lemma elem_of_composition_dates (st : store) (d : string) :
  d ∈ fetch_index_composition_dates st ↔
  ∃ ticker qty, index_composition st !! (d, ticker) = Some qty.
Proof.
  unfold fetch_index_composition_dates.
  rewrite elem_of_sorted, elem_of_elements, elem_of_map. split.
  - intros ([d' tk] & -> & [q Hq]%elem_of_dom). by exists tk, q.
  - intros (tk & q & Hq). exists (d, tk). split; [done|]. apply elem_of_dom. by eexists.
Qed.

(** X19. [fetch_index_composition_dates] returns, in ascending order and
    each once, exactly the dates for which the composition table has a row. *)
Theorem composition_dates_sorted_distinct (st : store) :
  StronglySorted StrOrd.le (fetch_index_composition_dates st)
  ∧ NoDup (fetch_index_composition_dates st)
  ∧ ∀ d, d ∈ fetch_index_composition_dates st ↔
      ∃ ticker qty, index_composition st !! (d, ticker) = Some qty.
Proof.
  split_and!.
  - apply sorted_Sorted.
  - unfold fetch_index_composition_dates. rewrite sorted_Permutation.
    apply NoDup_elements.
  - apply elem_of_composition_dates.
Qed.

(** X20. A run that completes on a trading day adds its date to the
    rebalance dates exactly when it rebalanced, and changes the list in no
    other way: a day with an unchanged composition does not appear. *)
Theorem composition_dates_after_run (self : provider) (date : string) (flag : bool)
    (st st' : store) (prices : gmap string Q) :
  is_trading_day self date "AAPL" = true →
  fetch_closing_prices self date (fetch_sp500_stocks self) = Ok prices →
  compute_index_value self date flag st = (Ok tt, st') →
  ∀ d, d ∈ fetch_index_composition_dates st' ↔
       d ∈ fetch_index_composition_dates st
       ∨ (d = date ∧ must_rebalance (get_previous_top_100_db date st)
                        (get_top_100_stocks_db date st') = true).
Proof.
  intros Hday Hfetch Hrun d.
  destruct (compute_index_value_Ok_inv self date flag st st' prices Hday Hfetch Hrun)
    as (V & _ & Hcase).
  destruct (prepared_frame self date flag prices st) as (_ & Hc & _).
  set (st2 := prepared self date flag prices st) in *.
  set (new := get_top_100_stocks_db date st2) in *.
  rewrite !elem_of_composition_dates.
  destruct (must_rebalance (get_previous_top_100_db date st) new) eqn:Hmust.
  - destruct Hcase as (Hne & Hpr & ->).
    change (get_top_100_stocks_db date (store_index_value_db _ _ _)) with new.
    rewrite Hmust.
    change (index_composition (store_index_value_db date V ?s)) with (index_composition s).
    destruct (decide (d = date)) as [->|Hd].
    + split; [intros _; by right|]. intros _.
      destruct new as [|tk new'] eqn:Hnew; [done|]. exists tk. eexists.
      unfold snapshot_rows. rewrite <- Hnew.
      apply rebalanced_lookup_new. rewrite Hnew. apply list_elem_of_here.
    + split.
      * intros (tk & q & Hq). left. exists tk, q.
        unfold snapshot_rows in Hq.
        rewrite rebalanced_lookup_other in Hq by (by left). by rewrite <- Hc.
      * intros [(tk & q & Hq)|[? _]]; [|done]. exists tk, q.
        unfold snapshot_rows. rewrite rebalanced_lookup_other by (by left).
        by rewrite Hc.
  - subst st'. change (get_top_100_stocks_db date (store_index_value_db _ _ _)) with new.
    rewrite Hmust.
    change (index_composition (store_index_value_db date V st2)) with (index_composition st2).
    rewrite Hc. split; [by left|]. by intros [?|[_ ?]].
Qed.

(** ** index_computation_wrapper.py: the loop over the dates *)

Section Wrapper.
Variable world : nat → provider.
Implicit Types (dates : list string) (st : store).

Lemma run_dates_cons cntr run_date dates st :
  run_dates world cntr (run_date :: dates) st
  = match compute_index_value (world cntr) run_date (Nat.eqb cntr 0) st with
    | (Ok _, st') => run_dates world (S cntr) dates st'
    | (Raise e, st') => (Raise e, st')
    end.
Proof. done. Qed.

Lemma run_without_refresh (self : provider) (date : string) st :
  quarterly_shares (compute_index_value self date false st).2 = quarterly_shares st.
Proof.
  destruct (is_trading_day self date "AAPL") eqn:Hday.
  - destruct (fetch_closing_prices self date (fetch_sp500_stocks self)) as [prices|e] eqn:Hf.
    + rewrite (compute_index_value_prices self date false st prices Hday Hf). cbv zeta.
      cbn [snd]. destruct (prepared_frame self date false prices st) as (Hq & _ & _).
      set (st2 := prepared self date false prices st) in *.
      destruct (dump_index_value_frame date prices (get_previous_top_100_db date st2)
                  (get_top_100_stocks_db date st2) st2) as (-> & _ & _).
      by rewrite Hq.
    + by rewrite (compute_index_value_no_prices self date false st e Hday Hf).
  - by rewrite compute_index_value_holiday.
Qed.

Lemma run_dates_later_calls cntr dates st :
  quarterly_shares (run_dates world (S cntr) dates st).2 = quarterly_shares st.
Proof.
  revert cntr st. induction dates as [|d dates IH]; intros cntr st; [done|].
  rewrite run_dates_cons. cbn [Nat.eqb].
  pose proof (run_without_refresh (world (S cntr)) d st) as Hq.
  destruct (compute_index_value (world (S cntr)) d false st) as [[[]|e] st1];
    cbn [snd] in *; [|done].
  by rewrite IH.
Qed.

(** X21. The loop asks for quarterly results in its first call only, and
    that call returns before fetching them when its date is not a trading
    day: then no call of the loop writes the quarterly shares table,
    whatever the later dates are. From the second call on the table is
    never written. *)
Theorem quarterly_shares_refreshed_once (run_date : string) dates st :
  is_trading_day (world 0) run_date "AAPL" = false →
  quarterly_shares (run_dates world 0 (run_date :: dates) st).2 = quarterly_shares st
  ∧ ∀ cntr dates' st0,
      quarterly_shares (run_dates world (S cntr) dates' st0).2 = quarterly_shares st0.
Proof.
  intros Hday. split; [|apply run_dates_later_calls].
  rewrite run_dates_cons, compute_index_value_holiday by done.
  apply run_dates_later_calls.
Qed.

Lemma run_dates_other_days cntr dates st d ticker :
  d ∉ dates →
  market_caps (run_dates world cntr dates st).2 !! (d, ticker)
  = market_caps st !! (d, ticker)
  ∧ index_composition (run_dates world cntr dates st).2 !! (d, ticker)
    = index_composition st !! (d, ticker)
  ∧ index_performance (run_dates world cntr dates st).2 !! d
    = index_performance st !! d.
Proof.
  revert cntr st. induction dates as [|d0 dates IH]; intros cntr st Hd; [done|].
  apply not_elem_of_cons in Hd as [Hne Hd].
  rewrite run_dates_cons.
  pose proof (run_keeps_other_days (world cntr) d0 (Nat.eqb cntr 0) st d ticker Hne)
    as (Hm & Hc & Hp).
  destruct (compute_index_value (world cntr) d0 (Nat.eqb cntr 0) st) as [[[]|e] st1];
    cbn [snd] in *; [|done].
  destruct (IH (S cntr) st1 Hd) as (-> & -> & ->). done.
Qed.

(** X22. The loop writes market-cap, composition and index-value rows of
    the dates of its list only: the rows of every other date are, after
    the loop and however it ends, what they were before. *)
Theorem run_dates_writes_listed_dates_only (cntr : nat) dates st (d : string) :
  d ∉ dates →
  (∀ ticker,
     market_caps (run_dates world cntr dates st).2 !! (d, ticker)
     = market_caps st !! (d, ticker)
     ∧ index_composition (run_dates world cntr dates st).2 !! (d, ticker)
       = index_composition st !! (d, ticker))
  ∧ index_performance (run_dates world cntr dates st).2 !! d
    = index_performance st !! d.
Proof.
  intros Hd. split.
  - intros tk. by destruct (run_dates_other_days cntr dates st d tk Hd) as (? & ? & _).
  - by destruct (run_dates_other_days cntr dates st d "" Hd) as (_ & _ & ?).
Qed.

End Wrapper.

(** ** Closed instances of the properties above *)

Lemma store_new_composition_keeps_rows_witness :
  index_composition
    (store_new_composition_db [("2025-01-02", "A", 1%Q)] held_three)
    !! ("2025-01-02", "C") = Some 20%Q
  ∧ ("C", 20%Q)
    ∈ rows_on (index_composition
                 (store_new_composition_db [("2025-01-02", "A", 1%Q)] held_three))
              "2025-01-02"
  ∧ ∀ other q, ("2025-01-02", other, q) ∈ [("2025-01-02", "A", 1%Q)] →
      ∃ q', (other, q')
            ∈ rows_on (index_composition
                         (store_new_composition_db [("2025-01-02", "A", 1%Q)] held_three))
                      "2025-01-02".
Proof.
  apply (store_new_composition_keeps_rows [("2025-01-02", "A", 1%Q)] held_three
           "2025-01-02" "C" 20%Q).
  - evaluated.
  - intros q Hin%list_elem_of_singleton. discriminate Hin.
Defined.

Lemma index_value_read_back_witness :
  get_previous_index_value_db "2025-01-06"
    (store_index_value_db "2025-01-03" 11000 held_three) = Some 11000%Q
  ∧ get_previous_index_value_db "2025-01-03"
      (store_index_value_db "2025-01-03" 11000 held_three)
    = get_previous_index_value_db "2025-01-03" held_three.
Proof.
  apply (index_value_read_back "2025-01-03" "2025-01-06" 11000 held_three).
  - evaluated.
  - intros d' v' Hl _. cbn [index_performance held_three] in Hl.
    apply lookup_singleton_Some in Hl as [<- _]. evaluated.
Defined.


Lemma empty_universe_value_error_witness :
  yf_downloader acme_empty "2025-01-03" [] = Raise ValueError
  ∧ compute_index_value acme_empty "2025-01-03" true held_three
    = (Raise ValueError, held_three).
Proof.
  apply (empty_universe_value_error acme_empty "2025-01-03" true held_three); evaluated.
Defined.

Lemma helper_returns_first_clean_attempt_witness :
  _yf_download_helper acme_busy "2025-01-03" 0 ["A"; "B-B"; "C"]
  = Ok (prices_df (yf_download acme_busy 0 2 ["A"; "B-B"; "C"] "2025-01-03")).
Proof.
  apply (helper_returns_first_clean_attempt acme_busy "2025-01-03" 0 ["A"; "B-B"; "C"] 2).
  - lia.
  - intros j Hj. assert (j = 1%nat) as -> by lia. done.
  - evaluated.
Defined.

Lemma missing_date_key_error_witness :
  fetch_closing_prices acme_stale "2025-01-03" (fetch_sp500_stocks acme_stale)
  = Raise (KeyError "2025-01-03")
  ∧ (compute_index_value acme_stale "2025-01-03" false after_first_day).1
    = Raise (KeyError "2025-01-03")
  ∧ market_caps (compute_index_value acme_stale "2025-01-03" false after_first_day).2
    = market_caps after_first_day
  ∧ index_composition (compute_index_value acme_stale "2025-01-03" false after_first_day).2
    = index_composition after_first_day
  ∧ index_performance (compute_index_value acme_stale "2025-01-03" false after_first_day).2
    = index_performance after_first_day.
Proof.
  apply (missing_date_key_error acme_stale "2025-01-03" false after_first_day
           {[ "2025-01-01" := closes "2025-01-03" ]}); evaluated.
Defined.



Lemma additions_alone_do_not_rebalance_witness :
  ("C" ∈ get_top_100_stocks_db "2025-01-03"
           (compute_index_value acme "2025-01-03" false held_two).2)
  ∧ ("C" ∉ get_previous_top_100_db "2025-01-03" held_two)
  ∧ index_composition (compute_index_value acme "2025-01-03" false held_two).2
    = index_composition held_two.
Proof.
  split; [listed|]. split.
  { assert (get_previous_top_100_db "2025-01-03" held_two = ["A"; "B-B"]) as ->
      by evaluated.
    intros Hin. repeat (apply elem_of_cons in Hin as [Hin|Hin]; [discriminate Hin|]).
    by apply elem_of_nil in Hin. }
  apply (additions_alone_do_not_rebalance acme "2025-01-03" false held_two
           (compute_index_value acme "2025-01-03" false held_two).2 (closes "2025-01-03")).
  - evaluated.
  - evaluated.
  - by vm_compute.
  - assert (get_previous_top_100_db "2025-01-03" held_two = ["A"; "B-B"]) as ->
      by evaluated.
    intros tk Hin. repeat (apply elem_of_cons in Hin as [->|Hin]); [listed..|].
    by apply elem_of_nil in Hin.
  - evaluated.
Defined.

Lemma composition_dates_after_run_witness :
  "2025-01-03" ∈ fetch_index_composition_dates after_rebalance ↔
  "2025-01-03" ∈ fetch_index_composition_dates held_three
  ∨ ("2025-01-03" = "2025-01-03"
     ∧ must_rebalance (get_previous_top_100_db "2025-01-03" held_three)
         (get_top_100_stocks_db "2025-01-03" after_rebalance) = true).
Proof.
  apply (composition_dates_after_run acme "2025-01-03" false held_three after_rebalance
           (closes "2025-01-03")); evaluated.
Defined.

Lemma quarterly_shares_refreshed_once_witness :
  quarterly_shares
    (run_dates (λ _, acme) 0 ["2025-01-04"; "2025-01-06"] empty_store).2
  = quarterly_shares empty_store.
Proof.
  apply (quarterly_shares_refreshed_once (λ _, acme) "2025-01-04" ["2025-01-06"]
           empty_store).
  evaluated.
Defined.

Lemma run_dates_writes_listed_dates_only_witness :
  index_performance (run_dates (λ _, acme) 1 ["2025-01-03"; "2025-01-06"] after_first_day).2
    !! "2025-01-02"
  = index_performance after_first_day !! "2025-01-02".
Proof.
  apply (run_dates_writes_listed_dates_only (λ _, acme) 1 ["2025-01-03"; "2025-01-06"]
           after_first_day "2025-01-02").
  intros Hin. repeat (apply elem_of_cons in Hin as [Hin|Hin]; [discriminate Hin|]).
  by apply elem_of_nil in Hin.
Defined.

(** ** stats_helper.py: the weights shown for a date *)

Lemma later_latest_report (acc : option (string * Q)) (d : string) (v : Q) :
  later d (fst <$> acc) = fst <$> latest_report acc d v.
Proof.
  destruct acc as [[d0 v0]|]; simpl; [|done]. by destruct (String.ltb d0 d).
Qed.

Lemma max_date_on_or_before_fold {V} (t : gmap (string * string) V) (date : string) :
  max_date_on_or_before t date
  = fst <$> latest_fold (λ kv, String.leb kv.1.1 date) (λ kv, kv.1.1) (λ _, 0%Q)
              (map_to_list t).
Proof.
  unfold max_date_on_or_before, latest_fold.
  induction (map_to_list t) as [|kv l IH]; [done|]. simpl.
  destruct (String.leb kv.1.1 date); [|done].
  by rewrite IH, (later_latest_report _ _ 0%Q).
Qed.

Lemma max_date_on_or_before_Some {V} (t : gmap (string * string) V) (date d : string) :
  max_date_on_or_before t date = Some d ↔
  String.leb d date = true ∧ (∃ ticker v, t !! (d, ticker) = Some v) ∧
  ∀ d' ticker' v', t !! (d', ticker') = Some v' → String.leb d' date = true →
    String.leb d' d = true.
Proof.
  rewrite max_date_on_or_before_fold. split.
  - destruct (latest_fold _ _ _ _) as [[d0 v0]|] eqn:Hfold; [|done].
    simpl. intros [= ->].
    apply latest_fold_Some in Hfold as ([[d' tk] v] & Hin & Hc & <- & _ & Hmax).
    simpl in *. apply elem_of_map_to_list in Hin.
    split_and!; [done|by exists tk, v|].
    intros d'' tk'' v'' Hl Hle. apply (Hmax ((d'', tk''), v'')); [|done].
    by apply elem_of_map_to_list.
  - intros (Hle & (tk & v & Hl) & Hmax).
    rewrite (latest_fold_max _ _ _ _ ((d, tk), v)); simpl; [done| |done| |done].
    + by apply elem_of_map_to_list.
    + intros [[d' tk'] v'] Hin Hc. simpl in *. apply elem_of_map_to_list in Hin.
      by eapply Hmax.
Qed.


Lemma elem_of_fetch_index_composition (date : string) (st : store)
    (row : string * string * option Q) :
  row ∈ fetch_index_composition date st ↔
  ∃ d ticker qty shares close cap,
    max_date_on_or_before (index_composition st) date = Some d
    ∧ index_composition st !! (d, ticker) = Some qty
    ∧ market_caps st !! (date, ticker) = Some (shares, close, cap)
    ∧ row = (date, ticker,
             sql_round 2 (sql_div (100 * (qty * close)) (index_performance st !! date))).
Proof.
  unfold fetch_index_composition.
  destruct (max_date_on_or_before (index_composition st) date) as [d|].
  - rewrite list_elem_of_omap. split.
    + intros ([tk q] & Hin%elem_of_rows_on & Hrow).
      destruct (market_caps st !! (date, tk)) as [[[sh cl] cap]|] eqn:Hmc; [|done].
      injection Hrow as <-. by exists d, tk, q, sh, cl, cap.
    + intros (d' & tk & q & sh & cl & cap & [= <-] & Hq & Hmc & ->).
      exists (tk, q). split; [by apply elem_of_rows_on|]. by rewrite Hmc.
  - split; [by intros ?%elem_of_nil|]. by intros (? & ? & ? & ? & ? & ? & ? & _).
Qed.


Lemma round_half_away_proper (x y : Q) : (x == y)%Q → round_half_away x = round_half_away y.
Proof.
  intros Hxy. unfold round_half_away.
  assert (Qle_bool 0 x = Qle_bool 0 y) as ->.
  { destruct (Qle_bool 0 y) eqn:Hy.
    - apply Qle_bool_iff. apply Qle_bool_iff in Hy. by rewrite Hxy.
    - destruct (Qle_bool 0 x) eqn:Hx; [|done].
      apply Qle_bool_iff in Hx. rewrite Hxy in Hx. apply Qle_bool_iff in Hx. congruence. }
  destruct (Qle_bool 0 y); [|f_equal]; apply Qfloor_comp; by rewrite Hxy.
Qed.

Lemma round_to_proper (digits : nat) (x y : Q) :
  (x == y)%Q → round_to digits x = round_to digits y.
Proof.
  intros Hxy. unfold round_to.
  rewrite (round_half_away_proper (x * inject_Z (10 ^ Z.of_nat digits))
             (y * inject_Z (10 ^ Z.of_nat digits))); [done|].
  by rewrite Hxy.
Qed.

(** X24. On a day that rebalances, in a store that held no composition
    or market-cap row of the day before the run, and with a non-zero index
    value, [fetch_index_composition] shows exactly the tickers of the day's
    top 100, each with the same weight, ROUND(100 / n, 2) for n tickers. *)
Theorem equal_weights_on_rebalance_day (self : provider) (date : string) (flag : bool)
    (st st' : store) (prices : gmap string Q) (V : Q) :
  is_trading_day self date "AAPL" = true →
  fetch_closing_prices self date (fetch_sp500_stocks self) = Ok prices →
  (∀ ticker, index_composition st !! (date, ticker) = None) →
  (∀ ticker, market_caps st !! (date, ticker) = None) →
  compute_index_value self date flag st = (Ok tt, st') →
  must_rebalance (get_previous_top_100_db date st) (get_top_100_stocks_db date st') = true →
  index_performance st' !! date = Some V →
  ¬ (V == 0)%Q →
  ∀ row, row ∈ fetch_index_composition date st' ↔
    ∃ ticker, ticker ∈ get_top_100_stocks_db date st'
      ∧ row = (date, ticker,
               Some (round_to 2 (100 / len (get_top_100_stocks_db date st')))).
Proof.
  intros Hday Hfetch Hfresh_c Hfresh_m Hrun Hdue Hperf HV row.
  destruct (compute_index_value_Ok_inv self date flag st st' prices Hday Hfetch Hrun)
    as (V' & _ & Hcase).
  destruct (prepared_frame self date flag prices st) as (_ & Hc & _).
  set (st2 := prepared self date flag prices st) in *.
  set (new := get_top_100_stocks_db date st2) in *.
  destruct (must_rebalance (get_previous_top_100_db date st) new) eqn:Hmust; cycle 1.
  { subst st'. change (get_top_100_stocks_db date (store_index_value_db _ _ _)) with new in Hdue.
    congruence. }
  destruct Hcase as (Hne & Hpr & ->).
  change (get_top_100_stocks_db date (store_index_value_db _ _ _)) with new.
  cbn [store_index_value_db index_performance] in Hperf.
  rewrite lookup_insert_eq in Hperf. injection Hperf as ->.
  set (st3 := store_index_value_db date V
                (store_new_composition_db (snapshot_rows date prices new V) st2)).
  assert (∀ tk q, index_composition st3 !! (date, tk) = Some q ↔
            tk ∈ new ∧ q = quantity prices new V tk) as Hrows.
  { intros tk q. destruct (decide (tk ∈ new)) as [Hin|Hnin].
    - pose proof (rebalanced_lookup_new date prices new V st2 tk Hin) as Hq.
      change (index_composition st3 !! (date, tk) = Some (quantity prices new V tk)) in Hq.
      rewrite Hq. split; [by intros [= <-]|by intros [_ ->]].
    - pose proof (rebalanced_lookup_other date prices new V st2 date tk (or_intror Hnin))
        as Hq.
      change (index_composition st3 !! (date, tk) = index_composition st2 !! (date, tk)) in Hq.
      rewrite Hq, Hc, Hfresh_c. split; [done|by intros [? _]]. }
  assert (max_date_on_or_before (index_composition st3) date = Some date) as Hmax.
  { apply max_date_on_or_before_Some. split_and!; [apply StrOrdFacts.leb_refl| |done].
    destruct new as [|tk0 new0] eqn:Hnew; [done|].
    exists tk0, (quantity prices (tk0 :: new0) V tk0). apply Hrows.
    split; [apply list_elem_of_here|done]. }
  assert (∀ tk, tk ∈ new → ∃ sh cl, prices !! tk = Some cl ∧ ¬ (cl == 0)%Q
            ∧ market_caps st3 !! (date, tk) = Some (sh, cl, (cl * sh)%Q)) as Hcaps.
  { intros tk Hin. destruct (Hpr tk Hin) as (cl & Hcl & Hnz).
    change (market_caps st3) with (market_caps st2).
    destruct (decide (tk ∈ fetch_sp500_stocks self)) as [Huni|Huni].
    - destruct (fetchone_shares (quarterly_shares (refreshed self flag st)) tk date)
        as [sh|] eqn:Hsh.
      + exists sh, cl. split_and!; [done..|].
        by apply prepared_market_caps_priced.
      + apply get_top_100_in_table in Hin as [r Hr]. unfold st2 in Hr.
        rewrite prepared_market_caps_other in Hr by (right; right; by left). congruence.
    - apply get_top_100_in_table in Hin as [r Hr]. unfold st2 in Hr.
      rewrite prepared_market_caps_other in Hr by (right; by left). congruence. }
  assert (∀ tk cl, tk ∈ new → prices !! tk = Some cl → ¬ (cl == 0)%Q →
            sql_round 2 (sql_div (100 * (quantity prices new V tk * cl))
                                 (index_performance st3 !! date))
            = Some (round_to 2 (100 / len new))) as Hweight.
  { intros tk cl Hin Hcl Hnz. cbn [st3 store_index_value_db index_performance].
    rewrite lookup_insert_eq. unfold sql_div.
    destruct (Qeq_bool V 0) eqn:HV0; [by apply Qeq_bool_iff in HV0|].
    simpl. f_equal. apply round_to_proper. unfold quantity. rewrite Hcl. simpl.
    field. split_and!; [by apply len_nonzero|done..]. }
  rewrite elem_of_fetch_index_composition. split.
  - intros (d & tk & q & sh & cl & cap & Hd & Hq & Hmc & ->).
    rewrite Hmax in Hd. injection Hd as <-.
    apply Hrows in Hq as [Hin ->]. exists tk. split; [done|].
    destruct (Hcaps tk Hin) as (sh' & cl' & Hcl & Hnz & Hmc').
    rewrite Hmc in Hmc'. injection Hmc' as -> -> ->.
    by rewrite (Hweight tk cl' Hin Hcl Hnz).
  - intros (tk & Hin & ->).
    destruct (Hcaps tk Hin) as (sh & cl & Hcl & Hnz & Hmc).
    exists date, tk, (quantity prices new V tk), sh, cl, (cl * sh)%Q.
    split_and!; [done|by apply Hrows|done|].
    by rewrite (Hweight tk cl Hin Hcl Hnz).
Qed.

Lemma equal_weights_on_rebalance_day_witness :
  is_trading_day acme "2025-01-03" "AAPL" = true
  ∧ (("2025-01-03", "A", Some (50 # 1)) ∈ fetch_index_composition "2025-01-03" after_rebalance ↔
     ∃ ticker, ticker ∈ get_top_100_stocks_db "2025-01-03" after_rebalance
       ∧ ("2025-01-03", "A", Some (50 # 1))
         = ("2025-01-03", ticker,
            Some (round_to 2
                    (100 / len (get_top_100_stocks_db "2025-01-03" after_rebalance))))).
Proof.
  split; [evaluated|].
  apply (equal_weights_on_rebalance_day acme "2025-01-03" false held_three after_rebalance
           (closes "2025-01-03") 600%Q).
  - evaluated.
  - evaluated.
  - intros tk. cbn [index_composition held_three].
    rewrite !lookup_insert_ne by (intros [=]). apply lookup_singleton_ne. intros [=].
  - intros tk. apply lookup_empty.
  - evaluated.
  - evaluated.
  - evaluated.
  - by vm_compute.
Defined.
